(** * Voice session manager and resilient caller of the Rishi Booking App

    A shallow embedding of
    - [withRetry] (src/services/geminiService.ts),
    - the capture callback [onaudioprocess] and the live-session callbacks
      [onopen], [onmessage], [onerror], [onclose], together with
      [connectAndListen] and [stopListening]
      (the VoiceAssistant component, src/components/LoadingSpinner.tsx,
      and the capture callback of src/components/ExploreView.tsx),
    - the voice input and the search of the ExploreView component, the
      driver marker of the BookingView component, and [handleSend] of the
      ChatBotView component with [sendChatMessage],
    followed by the properties of the specification that are stated about
    them (Part II) and by further properties read off the code (Part III).

    Conventions.  JavaScript numbers are modelled as rationals ([Q]):
    every finite float is a rational.  The delays of [withRetry] are
    computed as the code computes them, in binary64 arithmetic: every
    product and sum is rounded to the nearest binary64 value, ties to even
    ([Float64.round]).  On the times of the playback scheduler and on the
    audio samples the operations used ([Math.max], [+], a multiplication
    by a power of two) are taken exactly.  React state and [useRef] cells
    are fields of explicit records, callbacks are functions on those
    records, and calls into the browser (starting or stopping an audio
    node, closing a device, sending on the live session, calling a host
    callback) are recorded in an effect log. *)

From Stdlib Require Import ZArith QArith Qminmax Qround Qpower Lia Lqa String Ascii List.
From stdpp Require Import base gmap sets strings list.
Import ListNotations.

Local Open Scope Z_scope.

(* ===================================================================== *)
(** * Part I: the program                                                 *)
(* ===================================================================== *)

(** ** Numbers: binary64 arithmetic *)

Module Float64.

(** [2^k] for an integer [k] of either sign. *)
Definition pow2 (k : Z) : Q := (2 ^ k)%Q.

(** The integer nearest to [x]; of two that are equally near, the even
    one. *)
Definition roundEven (x : Q) : Z :=
  let f := Qfloor x in
  match (x - inject_Z f ?= 1 # 2)%Q with
  | Lt => f
  | Gt => f + 1
  | Eq => if Z.even f then f else f + 1
  end.

(** The exponent [e] of a positive [x], with [2^e <= x < 2^(e+1)]: the
    difference of the bit lengths of numerator and denominator, or one
    less. *)
Definition exponent (x : Q) : Z :=
  let k := Z.log2 (Qnum x) - Z.log2 (Zpos (Qden x)) in
  if Qle_bool (pow2 k) x then k else k - 1.

(** The binary64 value nearest to [x], ties to even: the significand of
    [x] is rounded to 53 bits, that is [x] is rounded to a multiple of
    the unit in the last place [2^(e-52)] of its binade.  The range of
    the exponent is not bounded, so there is neither overflow nor a
    subnormal range.  The numbers rounded here stay below a few thousand;
    a product below [2^-1022], where binary64 is coarser than this
    function, comes from a draw of [Math.random] below [2^-1031] only,
    and the sum with [1000 * 2^i] absorbs it in binary64 as it does
    here. *)
Definition round (x : Q) : Q :=
  match Qnum x with
  | Z0 => 0
  | Zpos _ =>
      let ulp := pow2 (exponent x - 52) in
      (inject_Z (roundEven (x / ulp)) * ulp)%Q
  | Zneg _ =>
      let ulp := pow2 (exponent (- x) - 52) in
      (- (inject_Z (roundEven (- x / ulp)) * ulp))%Q
  end.

(** [a * b] and [a + b] on Numbers. *)
Definition mul (a b : Q) : Q := round (a * b).
Definition add (a b : Q) : Q := round (a + b).

End Float64.

(** ** [withRetry] (src/services/geminiService.ts) *)

Module Retry.

(** [const MAX_RETRIES = 3;] *)
Definition MAX_RETRIES : nat := 3.

(** What one [await apiCall()] does: it returns a value or it throws.
    A thrown value is represented by its rendering [e.toString()], the
    only thing [withRetry] looks at. *)
Inductive Outcome (T : Type) : Type :=
| Resolved (v : T)
| Thrown (e : string).
Arguments Resolved {T} v.
Arguments Thrown {T} e.

(** [s.includes(needle)] *)
Fixpoint includes (needle s : string) : bool :=
  String.prefix needle s
  || match s with
     | EmptyString => false
     | String _ s' => includes needle s'
     end.

(** [e.toString().includes('overloaded') || e.toString().includes('UNAVAILABLE')] *)
Definition retriable (e : string) : bool :=
  includes "overloaded" e || includes "UNAVAILABLE" e.

(** [(Math.pow(2, i) * 1000) + (Math.random() * 1000)], where [r] is the
    value drawn by [Math.random()]; [Math.pow(2, i)] is the power of two
    itself, a binary64 value for the values of [i] that occur. *)
Definition backoff (i : nat) (r : Q) : Q :=
  Float64.add (Float64.mul (inject_Z (2 ^ Z.of_nat i)) 1000)
              (Float64.mul r 1000).

(** What a run of [withRetry] leaves behind: how the returned promise
    settles, how often [apiCall] was invoked, and the delays passed to
    [setTimeout], oldest first. *)
Record Run (T : Type) : Type := mkRun {
  settled : Outcome T;
  calls : nat;
  delays : list Q;
}.
Arguments mkRun {T}.
Arguments settled {T}.
Arguments calls {T}.
Arguments delays {T}.

Section WithRetry.
Context {T : Type}.
(** [apiCall k] is the outcome of the invocation of [apiCall] that
    [k] invocations precede. *)
Variable apiCall : nat -> Outcome T.
(** [random k] is the value of the [Math.random()] call that [k] such
    calls precede. *)
Variable random : nat -> Q.

(** The [for] loop, with [n = MAX_RETRIES - i] iterations to go.  Every
    iteration that goes on to the next one has invoked [apiCall] once
    and drawn one random number, so [i] also counts both. *)
Fixpoint loop (n i : nat) (lastError : option string) (slept : list Q)
  : Run T :=
  match n with
  | O =>
      (* throw lastError || new Error("API call failed after multiple retries.") *)
      mkRun (Thrown (default "Error: API call failed after multiple retries."%string
                             lastError))
            i slept
  | S n' =>
      match apiCall i with
      | Resolved v => mkRun (Resolved v) (S i) slept
      | Thrown e =>
          if retriable e
          then loop n' (S i) (Some e) (slept ++ [backoff i (random i)])
          else mkRun (Thrown e) (S i) slept
      end
  end.

Definition withRetry : Run T := loop MAX_RETRIES 0 None [].
End WithRetry.

End Retry.

(** ** The capture callback [processor.onaudioprocess] *)

Module Pcm.

(** Conversion of a finite number to an element of an [Int16Array]
    (ECMAScript ToInt16): truncate towards zero, reduce modulo 2^16,
    read the 16 bits as a signed integer. *)
Definition truncate (x : Q) : Z := Z.quot (Qnum x) (Zpos (Qden x)).

Definition wrap16 (n : Z) : Z :=
  let u := n mod 65536 in
  if u <? 32768 then u else u - 65536.

Definition ToInt16 (x : Q) : Z := wrap16 (truncate x).

(** The two bytes of one [Int16Array] element as [Uint8Array] sees them
    through [.buffer]: low byte first (the byte order of the platforms
    browsers run on). *)
Definition bytes16 (v : Z) : list Z :=
  let u := v mod 65536 in [u mod 256; u / 256].

(** [new Uint8Array(new Int16Array(inputData.map(x => x * 32768)).buffer)] *)
Definition pcmBytes (inputData : list Q) : list Z :=
  flat_map bytes16 (map ToInt16 (map (fun x => (x * 32768)%Q) inputData)).

(** [{ data: ..., mimeType: 'audio/pcm;rate=16000' }] *)
Record Blob : Type := mkBlob {
  data : string;
  mimeType : string;
}.

Section Capture.
(** [encode] of services/audioUtils, the transport encoding of a byte
    array.  Only its call is visible in the components, so it is a
    parameter of the model. *)
Variable encode : list Z -> string.

(** The chunk built by [onaudioprocess] from [getChannelData(0)] and
    handed to [session.sendRealtimeInput]. *)
Definition onaudioprocess (inputData : list Q) : Blob :=
  mkBlob (encode (pcmBytes inputData)) "audio/pcm;rate=16000".
End Capture.

(** The encoding as the specification words it: [round(sample * 32767)],
    clamped to the int16 range ([Math.round]: nearest, ties upwards). *)
Definition spec_round (x : Q) : Z := Qfloor (x + (1 # 2))%Q.

Definition spec_clamp (n : Z) : Z := Z.max (-32768) (Z.min 32767 n).

Definition spec_sample (x : Q) : Z := spec_clamp (spec_round (x * 32767)%Q).

End Pcm.

(** ** The VoiceAssistant component *)

Module Voice.

(** *** Data *)

(** ['BIKE' | 'AUTO' | 'CAR'] *)
Inductive Vehicle : Type := BIKE | AUTO | CAR.

(** [enum AppView] of types.ts *)
Inductive AppView : Type := BOOKING | CHAT | EXPLORE | PAYMENT.

(** The state of App.tsx that the component reaches through its props
    [setPickup], [setDestination], [setVehicle], [setCurrentView] and
    [onClose]. *)
Record Host : Type := mkHost {
  pickup : string;
  destination : string;
  vehicle : Vehicle;
  currentView : AppView;
  isVoiceAssistantOpen : bool;
}.

(** The values [setStatus] is called with. *)
Inductive Status : Type :=
| Initializing
| ConnectingStatus
| ListeningStatus
| ConnectionError
| ConnectionClosed
| NoMicrophone
| AccessDenied
| CouldNotStart.

Definition statusText (st : Status) : string :=
  match st with
  | Initializing => "Initializing..."
  | ConnectingStatus => "Connecting..."
  | ListeningStatus => "Listening..."
  | ConnectionError => "Connection error. Please try again."
  | ConnectionClosed => "Connection closed."
  | NoMicrophone =>
      "No microphone found. Please connect a microphone and grant permission."
  | AccessDenied =>
      "Microphone access denied. Please allow permission in your browser settings."
  | CouldNotStart => "Could not start microphone. Please check permissions."
  end.

(** The [useState] cells of the component. *)
Record Ui : Type := mkUi {
  status : Status;
  userTranscription : string;
  assistantResponse : string;
  isListening : bool;
}.

(** [AudioContext.state], as far as [stopListening] tests it. *)
Inductive ContextState : Type := running | closed.

(** The [useRef] cells.  For [sessionRef], [streamRef] and
    [processorRef], [true] stands for a held object and [false] for
    [null]; an audio context cell is [None] for [null] and otherwise
    holds a context in the given state.  Audio source nodes are named by
    the order of their creation. *)
Record Refs : Type := mkRefs {
  sessionRef : bool;
  inputAudioContextRef : option ContextState;
  outputAudioContextRef : option ContextState;
  streamRef : bool;
  processorRef : bool;
  sourcesRef : gset nat;
  nextStartTimeRef : Q;
}.

(** [{ id, name, response: { result } }] as passed to
    [session.sendToolResponse]. *)
Record FunctionResponse : Type := mkFunctionResponse {
  response_id : string;
  response_name : string;
  response_result : string;
}.

(** One [sourceNode.start(when)] call, with the duration of the buffer of
    the node. *)
Record Playback : Type := mkPlayback {
  node : nat;
  startAt : Q;
  duration : Q;
}.

(** Calls made into the browser, the live session and the host, oldest
    first; for the devices only their number is kept. *)
Record Log : Type := mkLog {
  created : nat;                        (* ctx.createBufferSource() *)
  started : list Playback;              (* sourceNode.start(...) *)
  stopped : list nat;                   (* sourceNode.stop() *)
  toolResponses : list FunctionResponse;(* session.sendToolResponse(...) *)
  trackStops : nat;                     (* stop() of the tracks of the MediaStream *)
  inputCloses : nat;                    (* inputAudioContextRef.current.close() *)
  outputCloses : nat;                   (* outputAudioContextRef.current.close() *)
  disconnects : nat;                    (* processorRef.current.disconnect() *)
  sessionCloses : nat;                  (* sessionRef.current.close() *)
  onCloseCalls : nat;                   (* onClose() *)
}.

(** Where [connectAndListen] stands. *)
Inductive Pc : Type :=
| NotStarted        (* not called yet *)
| AwaitingMedia     (* at [await navigator.mediaDevices.getUserMedia] *)
| MediaFailed       (* that promise rejected; the [catch] block has run *)
| AwaitingSession   (* at [await sessionPromise] *)
| SessionReady      (* [sessionRef.current] assigned *)
| SessionFailed.    (* [sessionPromise] rejected; the [catch] block has run *)

Record Session : Type := mkSession {
  ui : Ui;
  refs : Refs;
  host : Host;
  log : Log;
  pc : Pc;
  (* the responses of the [then] callbacks registered on [sessionPromise]
     that have not run yet, oldest first *)
  waiting : list FunctionResponse;
}.

(** *** Messages of the live session *)

(** A part of a model turn; [inlineData] holds the [data] of the inline
    blob when the part has one. *)
Record Part : Type := mkPart {
  inlineData : option string;
}.

Record ServerContent : Type := mkServerContent {
  inputTranscription : option string;   (* the [text] of it *)
  outputTranscription : option string;  (* the [text] of it *)
  modelTurn : option (list Part);       (* the [parts] of it *)
  interrupted : bool;
  turnComplete : bool;
}.

(** The tool declares [pickup], [destination] and [vehicle] with
    [Type.STRING]; arguments are a finite map from names to strings. *)
Record FunctionCall : Type := mkFunctionCall {
  fc_id : string;
  fc_name : string;
  fc_args : option (gmap string string);
}.

Record LiveServerMessage : Type := mkMessage {
  serverContent : option ServerContent;
  toolCall : option (list FunctionCall);   (* the [functionCalls] of it *)
}.

(** [AudioBuffer]: [length] sample frames at [sampleRate]. *)
Record AudioBuffer : Type := mkAudioBuffer {
  frames : N;
  sampleRate : positive;
}.

(** [audioBuffer.duration] *)
Definition bufferDuration (b : AudioBuffer) : Q :=
  Z.of_N (frames b) # sampleRate b.

(** *** Field updates *)

Definition setStatus (v : Status) (u : Ui) : Ui :=
  mkUi v (userTranscription u) (assistantResponse u) (isListening u).
Definition setUserTranscription (v : string) (u : Ui) : Ui :=
  mkUi (status u) v (assistantResponse u) (isListening u).
Definition setAssistantResponse (v : string) (u : Ui) : Ui :=
  mkUi (status u) (userTranscription u) v (isListening u).
Definition setIsListening (v : bool) (u : Ui) : Ui :=
  mkUi (status u) (userTranscription u) (assistantResponse u) v.

Definition setPickup (v : string) (h : Host) : Host :=
  mkHost v (destination h) (vehicle h) (currentView h) (isVoiceAssistantOpen h).
Definition setDestination (v : string) (h : Host) : Host :=
  mkHost (pickup h) v (vehicle h) (currentView h) (isVoiceAssistantOpen h).
Definition setVehicle (v : Vehicle) (h : Host) : Host :=
  mkHost (pickup h) (destination h) v (currentView h) (isVoiceAssistantOpen h).
Definition setCurrentView (v : AppView) (h : Host) : Host :=
  mkHost (pickup h) (destination h) (vehicle h) v (isVoiceAssistantOpen h).
(** [onClose = () => setIsVoiceAssistantOpen(false)] *)
Definition onClose (h : Host) : Host :=
  mkHost (pickup h) (destination h) (vehicle h) (currentView h) false.

Definition withUi (f : Ui -> Ui) (s : Session) : Session :=
  mkSession (f (ui s)) (refs s) (host s) (log s) (pc s) (waiting s).
Definition withRefs (f : Refs -> Refs) (s : Session) : Session :=
  mkSession (ui s) (f (refs s)) (host s) (log s) (pc s) (waiting s).
Definition withHost (f : Host -> Host) (s : Session) : Session :=
  mkSession (ui s) (refs s) (f (host s)) (log s) (pc s) (waiting s).
Definition withLog (f : Log -> Log) (s : Session) : Session :=
  mkSession (ui s) (refs s) (host s) (f (log s)) (pc s) (waiting s).
Definition withPc (v : Pc) (s : Session) : Session :=
  mkSession (ui s) (refs s) (host s) (log s) v (waiting s).
Definition withWaiting (v : list FunctionResponse) (s : Session) : Session :=
  mkSession (ui s) (refs s) (host s) (log s) (pc s) v.

Definition setSources (v : gset nat) (r : Refs) : Refs :=
  mkRefs (sessionRef r) (inputAudioContextRef r) (outputAudioContextRef r)
         (streamRef r) (processorRef r) v (nextStartTimeRef r).
Definition setNextStartTime (v : Q) (r : Refs) : Refs :=
  mkRefs (sessionRef r) (inputAudioContextRef r) (outputAudioContextRef r)
         (streamRef r) (processorRef r) (sourcesRef r) v.
Definition setSessionRef (v : bool) (r : Refs) : Refs :=
  mkRefs v (inputAudioContextRef r) (outputAudioContextRef r)
         (streamRef r) (processorRef r) (sourcesRef r) (nextStartTimeRef r).

Definition logStart (p : Playback) (l : Log) : Log :=
  mkLog (S (created l)) (started l ++ [p]) (stopped l) (toolResponses l)
        (trackStops l) (inputCloses l) (outputCloses l) (disconnects l)
        (sessionCloses l) (onCloseCalls l).
Definition logStops (ns : list nat) (l : Log) : Log :=
  mkLog (created l) (started l) (stopped l ++ ns) (toolResponses l)
        (trackStops l) (inputCloses l) (outputCloses l) (disconnects l)
        (sessionCloses l) (onCloseCalls l).
Definition logToolResponses (rs : list FunctionResponse) (l : Log) : Log :=
  mkLog (created l) (started l) (stopped l) (toolResponses l ++ rs)
        (trackStops l) (inputCloses l) (outputCloses l) (disconnects l)
        (sessionCloses l) (onCloseCalls l).

(** *** The [onmessage] callback *)

(** How an invocation of the [async] callback ends: its promise is
    fulfilled, or an exception left the body and the promise is rejected
    (nothing awaits or catches it; what the body did before stays). *)
Inductive Completion : Type := Returned | Rejected.

(** The value of
    [message.serverContent?.modelTurn?.parts[0]?.inlineData.data]:
    the chain is optional up to [parts[0]], and reading [.data] of a
    missing [inlineData] raises a TypeError. *)
Inductive Lookup : Type :=
| Undefined
| Found (base64 : string)
| TypeError.

Definition base64Audio (m : LiveServerMessage) : Lookup :=
  match serverContent m ≫= modelTurn with
  | None => Undefined
  | Some [] => Undefined
  | Some (p :: _) =>
      match inlineData p with
      | None => TypeError
      | Some d => Found d
      end
  end.

(** Truthiness of a string-valued expression that may be [undefined]. *)
Definition truthy (v : option string) : bool :=
  match v with
  | Some (String _ _) => true
  | _ => false
  end.

(** [['BIKE', 'AUTO', 'CAR'].includes(vehicle)], with the element found. *)
Definition vehicleOf (v : string) : option Vehicle :=
  if String.eqb v "BIKE" then Some BIKE
  else if String.eqb v "AUTO" then Some AUTO
  else if String.eqb v "CAR" then Some CAR
  else None.

Definition okResult : string :=
  "ok, details have been updated on the user's screen.".

(** [sessionPromise.then(session => session.sendToolResponse(r))].  The
    callback runs once [sessionPromise] is fulfilled: at once when it
    already is, when [ai.live.connect] resolves when it is still pending
    (until then the callback waits), and never when it has been rejected.
    Before [ai.live.connect] is called there is no [sessionPromise] and
    no callback of the session is invoked. *)
Definition thenSendToolResponse (r : FunctionResponse) (s : Session) : Session :=
  match pc s with
  | SessionReady => withLog (logToolResponses [r]) s
  | AwaitingSession => withWaiting (waiting s ++ [r]) s
  | SessionFailed | NotStarted | AwaitingMedia | MediaFailed => s
  end.

(** The body of [for (const fc of message.toolCall.functionCalls)]. *)
Definition dispatch (fc : FunctionCall) (s : Session) : Session :=
  match fc_args fc with
  | Some args =>
      if String.eqb (fc_name fc) "controlRide" then
        let h := host s in
        let h := if truthy (args !! "pickup")
                 then setPickup (default "" (args !! "pickup")) h else h in
        let h := if truthy (args !! "destination")
                 then setDestination (default "" (args !! "destination")) h else h in
        let h := if truthy (args !! "vehicle")
                 then match args !! "vehicle" ≫= vehicleOf with
                      | Some v => setVehicle v h
                      | None => h
                      end
                 else h in
        let h := setCurrentView BOOKING h in
        thenSendToolResponse
          (mkFunctionResponse (fc_id fc) (fc_name fc) okResult)
          (withHost (fun _ => h) s)
      else s
  | None => s
  end.

(** [if (message.toolCall) { for ... }] *)
Definition onToolCall (m : LiveServerMessage) (s : Session) : Session :=
  match toolCall m with
  | Some fcs => fold_left (fun s fc => dispatch fc s) fcs s
  | None => s
  end.

(** [if (message.serverContent?.inputTranscription) ...] and
    [if (message.serverContent?.outputTranscription) ...] *)
Definition onTranscription (m : LiveServerMessage) (s : Session) : Session :=
  let s := match serverContent m ≫= inputTranscription with
           | Some text => withUi (setUserTranscription text) s
           | None => s
           end in
  match serverContent m ≫= outputTranscription with
  | Some text => withUi (setAssistantResponse text) s
  | None => s
  end.

(** [if (message.serverContent?.interrupted) { ... }] *)
Definition interrupted_ (m : LiveServerMessage) : bool :=
  match serverContent m with
  | Some c => interrupted c
  | None => false
  end.

Definition interrupt (s : Session) : Session :=
  withUi (setAssistantResponse "")
    (withRefs (fun r => setNextStartTime 0%Q (setSources ∅ r))
       (withLog (logStops (elements (sourcesRef (refs s)))) s)).

Definition onInterrupted (m : LiveServerMessage) (s : Session) : Session :=
  if interrupted_ m then interrupt s else s.

(** [if (message.serverContent?.turnComplete) setUserTranscription('')] *)
Definition turnComplete_ (m : LiveServerMessage) : bool :=
  match serverContent m with
  | Some c => turnComplete c
  | None => false
  end.

Definition onTurnComplete (m : LiveServerMessage) (s : Session) : Session :=
  if turnComplete_ m then withUi (setUserTranscription "") s else s.

(** Lines 119 to 125: a new source node for [audioBuffer] is started at
    the cursor, the cursor moves past the buffer, and the node joins
    [sourcesRef]. *)
Definition play (audioBuffer : AudioBuffer) (s : Session) : Session :=
  let sourceNode := created (log s) in
  let at_ := nextStartTimeRef (refs s) in
  withRefs (fun r => setSources ({[ sourceNode ]} ∪ sourcesRef r)
                       (setNextStartTime (at_ + bufferDuration audioBuffer)%Q r))
    (withLog (logStart (mkPlayback sourceNode at_ (bufferDuration audioBuffer))) s).

(** The ['ended'] listener of a source node. *)
Definition onended (sourceNode : nat) (s : Session) : Session :=
  withRefs (fun r => setSources (sourcesRef r ∖ {[ sourceNode ]}) r) s.

Section Handler.
(** [decodeAudioData(decode(base64), ctx, 24000, 1)] of
    services/audioUtils, of which the components show the call only:
    the buffer it yields, or [None] when either function throws (on
    malformed or truncated data). *)
Variable decodeAudioData : string -> option AudioBuffer.

(** The statements of the callback that follow the audio block. *)
Definition afterAudio (m : LiveServerMessage) (s : Session) : Session :=
  onTurnComplete m (onToolCall m (onInterrupted m s)).

(** The callback; [currentTime] is what [ctx.currentTime] reads during
    the call.  The one [await] of the body waits for [decodeAudioData],
    which settles without waiting for anything outside; no other event of
    the component is handled in between, and the call is one step. *)
Definition onmessage (currentTime : Q) (m : LiveServerMessage) (s : Session)
  : Session * Completion :=
  let s := onTranscription m s in
  match base64Audio m with
  | TypeError => (s, Rejected)
  | Undefined => (afterAudio m s, Returned)
  | Found base64 =>
      match base64, outputAudioContextRef (refs s) with
      | String _ _, Some _ =>
          let s := withRefs
                     (fun r => setNextStartTime
                                 (Qmax (nextStartTimeRef r) currentTime) r) s in
          match decodeAudioData base64 with
          | None => (s, Rejected)
          | Some audioBuffer => (afterAudio m (play audioBuffer s), Returned)
          end
      | _, _ => (afterAudio m s, Returned)
      end
  end.
End Handler.

(** *** Life cycle *)

(** The [catch] block of [connectAndListen], by [error.name]. *)
Definition catchStatus (name : string) : Status :=
  if String.eqb name "NotFoundError" || String.eqb name "DevicesNotFoundError"
  then NoMicrophone
  else if String.eqb name "NotAllowedError" || String.eqb name "PermissionDeniedError"
  then AccessDenied
  else CouldNotStart.

(** [connectAndListen] up to its first [await]. *)
Definition connectAndListen (s : Session) : Session :=
  withPc AwaitingMedia (withUi (setStatus ConnectingStatus) s).

(** [getUserMedia] resolved: the statements up to [await sessionPromise]
    (the stream is kept, both audio contexts and the processor are
    created, [ai.live.connect] is called).  The constructors and
    [ai.live.connect] are taken to return; a failure to connect shows as
    the rejection of [sessionPromise]. *)
Definition mediaGranted (s : Session) : Session :=
  withPc AwaitingSession
    (withRefs (fun r => mkRefs (sessionRef r) (Some running) (Some running)
                               true true (sourcesRef r) (nextStartTimeRef r)) s).

(** [getUserMedia] rejected with an error of the given name. *)
Definition mediaRejected (name : string) (s : Session) : Session :=
  withPc MediaFailed (withUi (setStatus (catchStatus name)) s).

(** [sessionPromise] resolved: [sessionRef.current = await sessionPromise],
    the continuation registered first, and then the [then] callbacks
    that were waiting, in the order of their registration. *)
Definition sessionResolved (s : Session) : Session :=
  withPc SessionReady
    (withWaiting []
       (withLog (logToolResponses (waiting s))
          (withRefs (setSessionRef true) s))).

(** [sessionPromise] rejected with an error of the given name: the
    [catch] block runs, and the [then] callbacks that were waiting are
    never called. *)
Definition sessionRejected (name : string) (s : Session) : Session :=
  withPc SessionFailed
    (withWaiting [] (withUi (setStatus (catchStatus name)) s)).

Definition onopen (s : Session) : Session :=
  withUi (fun u => setIsListening true (setStatus ListeningStatus u)) s.

Definition onerror (s : Session) : Session :=
  withUi (fun u => setIsListening false (setStatus ConnectionError u)) s.

Definition onclose (s : Session) : Session :=
  withUi (fun u => setIsListening false (setStatus ConnectionClosed u)) s.

(** [ctx.close()] under the guard [ctx && ctx.state !== 'closed'].  The
    context counts as closed from the call on: the browser releases it on
    the first call and refuses a second one, and [state] is read as
    ['closed'] from then on. *)
Definition closeContext (c : option ContextState) : option ContextState :=
  match c with
  | Some running => Some closed
  | other => other
  end.

Definition isRunning (c : option ContextState) : bool :=
  match c with
  | Some running => true
  | _ => false
  end.

Definition count (b : bool) : nat := if b then 1%nat else 0%nat.

Definition stopListening (s : Session) : Session :=
  let r := refs s in
  let l := log s in
  mkSession
    (setIsListening false (ui s))
    (mkRefs false
            (closeContext (inputAudioContextRef r))
            (closeContext (outputAudioContextRef r))
            false false ∅ (nextStartTimeRef r))
    (onClose (host s))
    (mkLog (created l) (started l)
           (stopped l ++ elements (sourcesRef r))
           (toolResponses l)
           (trackStops l + count (streamRef r))
           (inputCloses l + count (isRunning (inputAudioContextRef r)))
           (outputCloses l + count (isRunning (outputAudioContextRef r)))
           (disconnects l + count (processorRef r))
           (sessionCloses l + count (sessionRef r))
           (S (onCloseCalls l)))
    (pc s)
    (waiting s).

(** The component when it is mounted by a host in state [h]. *)
Definition mounted (h : Host) : Session :=
  mkSession (mkUi Initializing "" "" false)
            (mkRefs false None None false false ∅ 0%Q)
            h
            (mkLog 0 [] [] [] 0 0 0 0 0 0)
            NotStarted
            [].

(** What can happen to a mounted component. *)
Inductive Event : Type :=
| Start                                   (* the effect calls connectAndListen() *)
| MediaGranted
| MediaRejected (name : string)
| SessionResolved
| SessionRejected (name : string)
| Open                                    (* callbacks.onopen *)
| Message (currentTime : Q) (m : LiveServerMessage)
| Error                                   (* callbacks.onerror *)
| Close                                   (* callbacks.onclose *)
| Ended (sourceNode : nat)
| Stop.                                   (* stopListening(): button, backdrop, unmount *)

(** The live session calls back once [ai.live.connect] has been called. *)
Definition connectCalled (s : Session) : bool :=
  match pc s with
  | AwaitingSession | SessionReady | SessionFailed => true
  | _ => false
  end.

Definition enabled (s : Session) (e : Event) : bool :=
  match e with
  | Start => match pc s with NotStarted => true | _ => false end
  | MediaGranted | MediaRejected _ =>
      match pc s with AwaitingMedia => true | _ => false end
  | SessionResolved | SessionRejected _ =>
      match pc s with AwaitingSession => true | _ => false end
  | Open | Message _ _ | Error | Close => connectCalled s
  | Ended n => Nat.ltb n (created (log s))   (* the node exists *)
  | Stop => true
  end.

Section Steps.
Variable decodeAudioData : string -> option AudioBuffer.

Definition step (s : Session) (e : Event) : Session :=
  match e with
  | Start => connectAndListen s
  | MediaGranted => mediaGranted s
  | MediaRejected name => mediaRejected name s
  | SessionResolved => sessionResolved s
  | SessionRejected name => sessionRejected name s
  | Open => onopen s
  | Message currentTime m => fst (onmessage decodeAudioData currentTime m s)
  | Error => onerror s
  | Close => onclose s
  | Ended n => onended n s
  | Stop => stopListening s
  end.

(** The events of [es] in order; one that cannot happen in the state
    reached is skipped. *)
Definition run (es : list Event) (s : Session) : Session :=
  fold_left (fun s e => if enabled s e then step s e else s) es s.
End Steps.

End Voice.

(** ** The vocabulary of the specification *)

Module Spec.
Import Voice.



(** The three handles of a session: the microphone stream, the output
    audio context, the live session. *)
Definition captureOpen (s : Session) : bool := streamRef (refs s).
Definition outputOpen (s : Session) : bool :=
  isRunning (outputAudioContextRef (refs s)).
Definition networkOpen (s : Session) : bool := sessionRef (refs s).


Definition allReleased (s : Session) : bool :=
  negb (captureOpen s) && negb (outputOpen s) && negb (networkOpen s).


(** The devices that [connectAndListen] has acquired so far: one
    microphone stream and one output context once [getUserMedia] has
    resolved, none before. *)
Definition acquired (s : Session) : nat := count (connectCalled s).

(** A message whose first part carries a non-empty audio frame that
    decodes to [audioBuffer]. *)
Definition audioFrame (decodeAudioData : string -> option AudioBuffer)
    (m : LiveServerMessage) (audioBuffer : AudioBuffer) : Prop :=
  exists base64,
    base64Audio m = Found base64 /\ base64 <> ""%string /\
    decodeAudioData base64 = Some audioBuffer.

(** A message whose first part carries a non-empty audio frame that
    does not decode. *)
Definition malformedFrame (decodeAudioData : string -> option AudioBuffer)
    (m : LiveServerMessage) : Prop :=
  exists base64,
    base64Audio m = Found base64 /\ base64 <> ""%string /\
    decodeAudioData base64 = None.

(** What [stopListening] acts upon and what records its acting: the
    handles, the number of times each has been closed, and the progress
    of [connectAndListen]. *)
Definition devices (s : Session) :=
  (sessionRef (refs s), streamRef (refs s), processorRef (refs s),
   inputAudioContextRef (refs s), outputAudioContextRef (refs s),
   (trackStops (log s), inputCloses (log s), outputCloses (log s),
    disconnects (log s), sessionCloses (log s)),
   pc s).

(** Every device that has been acquired is open or has been closed once,
    and the two audio devices are open together. *)
Definition accounted (s : Session) : Prop :=
  (trackStops (log s) + count (streamRef (refs s)) = acquired s)%nat /\
  (inputCloses (log s) + count (isRunning (inputAudioContextRef (refs s)))
   = acquired s)%nat /\
  (outputCloses (log s) + count (isRunning (outputAudioContextRef (refs s)))
   = acquired s)%nat /\
  captureOpen s = outputOpen s.

(** A state in which [stopListening] finds nothing to release. *)
Definition released (s : Session) : Prop :=
  sessionRef (refs s) = false /\ streamRef (refs s) = false /\
  processorRef (refs s) = false /\
  isRunning (inputAudioContextRef (refs s)) = false /\
  isRunning (outputAudioContextRef (refs s)) = false /\
  sourcesRef (refs s) = ∅.

(** One more call of [onClose] in the log. *)
Definition countOnClose (l : Log) : Log :=
  mkLog (created l) (started l) (stopped l) (toolResponses l)
        (trackStops l) (inputCloses l) (outputCloses l) (disconnects l)
        (sessionCloses l) (S (onCloseCalls l)).

(** A function call the component answers. *)
Definition answered (fc : FunctionCall) : bool :=
  String.eqb (fc_name fc) "controlRide" && bool_decide (is_Some (fc_args fc)).

Definition answer (fc : FunctionCall) : FunctionResponse :=
  mkFunctionResponse (fc_id fc) (fc_name fc) okResult.
End Spec.

(** ** Strings *)

Module Js.

(** Strings are sequences of characters with codes below 256.  Of these,
    [String.prototype.trim] removes the white space and line terminators
    of ECMAScript: tab, line feed, vertical tab, form feed, carriage
    return, space and no-break space. *)
Definition isWhiteSpace (c : ascii) : bool :=
  let n := nat_of_ascii c in
  ((9 <=? n)%nat && (n <=? 13)%nat) || (n =? 32)%nat || (n =? 160)%nat.

(** [!s.trim()]: nothing is left of [s] when the white space at its ends
    is removed. *)
Definition blank (s : string) : bool :=
  forallb isWhiteSpace (list_ascii_of_string s).

End Js.

(** ** The ExploreView component (src/components/ExploreView.tsx) *)

Module Explore.

Record GroundingChunk : Type := mkChunk {
  maps : option (string * string);       (* uri and title *)
}.

Record Location : Type := mkLocation {
  latitude : Q;
  longitude : Q;
}.

(** The [useState] cells. *)
Record Ui : Type := mkUi {
  query : string;
  isLoading : bool;
  response : option string;
  groundingChunks : list GroundingChunk;
  error : option string;
  userLocation : option Location;
  isListening : bool;
}.

(** The [useRef] cells, with [true] for a held object and [false] for
    [null]. *)
Record Refs : Type := mkRefs {
  sessionRef : bool;
  inputAudioContextRef : option Voice.ContextState;
  streamRef : bool;
  processorRef : bool;
  finalQueryRef : string;
}.

(** Calls made out of the component. *)
Record Log : Type := mkLog {
  requests : list (string * option Location);  (* getMapsGroundedResponse(query, location) *)
  trackStops : nat;                            (* stop() of the tracks of the stream *)
  contextCloses : nat;                         (* inputAudioContextRef.current.close() *)
  disconnects : nat;                           (* processorRef.current.disconnect() *)
  sessionCloses : nat;                         (* sessionRef.current.close() *)
}.

Record View : Type := mkView {
  ui : Ui;
  refs : Refs;
  log : Log;
}.

Definition withUi (f : Ui -> Ui) (s : View) : View := mkView (f (ui s)) (refs s) (log s).

Definition setQuery (v : string) (u : Ui) : Ui :=
  mkUi v (isLoading u) (response u) (groundingChunks u) (error u) (userLocation u)
       (isListening u).
Definition setError (v : option string) (u : Ui) : Ui :=
  mkUi (query u) (isLoading u) (response u) (groundingChunks u) v (userLocation u)
       (isListening u).
Definition setIsListening (v : bool) (u : Ui) : Ui :=
  mkUi (query u) (isLoading u) (response u) (groundingChunks u) (error u)
       (userLocation u) v.
Definition setFinalQuery (v : string) (s : View) : View :=
  mkView (ui s)
         (mkRefs (sessionRef (refs s)) (inputAudioContextRef (refs s))
                 (streamRef (refs s)) (processorRef (refs s)) v)
         (log s).

(** [cleanupAudio]: each of the stream, the audio context and the
    processor is released and its cell set to [null], if it is held. *)
Definition cleanupAudio (s : View) : View :=
  let r := refs s in
  let l := log s in
  mkView (ui s)
         (mkRefs (sessionRef r)
                 (match inputAudioContextRef r with
                  | Some Voice.running => None
                  | other => other
                  end)
                 false false (finalQueryRef r))
         (mkLog (requests l)
                (trackStops l + Voice.count (streamRef r))
                (contextCloses l + Voice.count (Voice.isRunning (inputAudioContextRef r)))
                (disconnects l + Voice.count (processorRef r))
                (sessionCloses l)).

(** [stopListening] *)
Definition stopListening (s : View) : View :=
  let r := refs s in
  let l := log s in
  let closed :=
    mkView (ui s)
           (mkRefs false (inputAudioContextRef r) (streamRef r) (processorRef r)
                   (finalQueryRef r))
           (mkLog (requests l) (trackStops l) (contextCloses l) (disconnects l)
                  (sessionCloses l + Voice.count (sessionRef r))) in
  withUi (setIsListening false) (cleanupAudio closed).

(** [performSearch], as rendered with [userLocation], up to its [await]:
    a blank query does nothing; otherwise the results and the error are
    cleared, the view is loading and the request goes out. *)
Definition performSearch (userLocation_ : option Location) (searchQuery : string)
    (s : View) : View :=
  if Js.blank searchQuery then s
  else
    let u := ui s in
    let l := log s in
    mkView (mkUi (query u) true None [] None (userLocation u) (isListening u))
           (refs s)
           (mkLog (requests l ++ [(searchQuery, userLocation_)]) (trackStops l)
                  (contextCloses l) (disconnects l) (sessionCloses l)).

(** [performSearch] after its [await], when [getMapsGroundedResponse]
    returned [text] and [chunks]. *)
Definition searchResolved (text : option string) (chunks : list GroundingChunk)
    (s : View) : View :=
  let u := ui s in
  mkView (mkUi (query u) false text chunks (error u) (userLocation u) (isListening u))
         (refs s) (log s).

(** [performSearch] after its [await], when [getMapsGroundedResponse]
    threw. *)
Definition searchRejected (s : View) : View :=
  let u := ui s in
  mkView (mkUi (query u) false (response u) (groundingChunks u)
               (Some "Sorry, I couldn't find information for that. Please try another search."%string)
               (userLocation u) (isListening u))
         (refs s) (log s).

(** [handleSearch], as rendered with [query] and [userLocation]. *)
Definition handleSearch (query_ : string) (userLocation_ : option Location)
    (s : View) : View :=
  let searchQuery :=
    match finalQueryRef (refs s) with
    | EmptyString => query_
    | spoken => spoken
    end in
  setFinalQuery "" (performSearch userLocation_ searchQuery s).

(** [handleExampleClick], as rendered with [userLocation]. *)
Definition handleExampleClick (userLocation_ : option Location) (exampleQuery : string)
    (s : View) : View :=
  performSearch userLocation_ exampleQuery (withUi (setQuery exampleQuery) s).

(** The callbacks that [startListening] hands to [ai.live.connect].  They
    are closures of the render in which the microphone button was
    pressed: [onclose] calls the [handleSearch] of that render, with the
    [query] and [userLocation] of that render. *)
Definition onmessage (m : Voice.LiveServerMessage) (s : View) : View :=
  match Voice.serverContent m ≫= Voice.inputTranscription with
  | Some (String c rest) =>
      setFinalQuery (String c rest) (withUi (setQuery (String c rest)) s)
  | _ => s
  end.

Definition onerror (s : View) : View :=
  stopListening
    (withUi (setError (Some "Voice connection error. Please try again."%string)) s).

Definition onclose (query_ : string) (userLocation_ : option Location) (s : View)
  : View :=
  handleSearch query_ userLocation_
    (withUi (setIsListening false) (cleanupAudio s)).

(** [startListening] up to its first [await]. *)
Definition startListening (s : View) : View :=
  let u := ui s in
  mkView (mkUi (query u) (isLoading u) None [] None (userLocation u) true)
         (refs s) (log s).

(** [getUserMedia] resolved: the statements up to [await sessionPromise]. *)
Definition mediaGranted (s : View) : View :=
  mkView (ui s)
         (mkRefs (sessionRef (refs s)) (Some Voice.running) true true
                 (finalQueryRef (refs s)))
         (log s).

(** [sessionRef.current = await sessionPromise] *)
Definition sessionResolved (s : View) : View :=
  mkView (ui s)
         (mkRefs true (inputAudioContextRef (refs s)) (streamRef (refs s))
                 (processorRef (refs s)) (finalQueryRef (refs s)))
         (log s).

(** The [catch] block, for an error of the given name. *)
Definition startRejected (name : string) (s : View) : View :=
  withUi (fun u => setIsListening false
                     (setError (Some (Voice.statusText (Voice.catchStatus name))) u)) s.

End Explore.

(** ** The BookingView component: the driver marker of the ride in
    progress (src/components/LoadingSpinner.tsx, lines 366 to 376) *)

Module Booking.

(** [driverPosition], in per cent of the map; the state holds the two
    numbers as strings with a per cent sign, which [parseFloat] reads
    back. *)
Record Position : Type := mkPosition {
  top : Q;
  left : Q;
}.

(** [useState({ top: '40%', left: '60%' })] *)
Definition initialPosition : Position := mkPosition 40 60.

(** One run of the interval that moves the driver, with the two values
    drawn by [Math.random()]. *)
Definition moveDriver (r1 r2 : Q) (prev : Position) : Position :=
  let newTop := (top prev + (r1 - (1 # 2)) * 4)%Q in
  let newLeft := (left prev + (r2 - (1 # 2)) * 4)%Q in
  mkPosition (Qmax 10 (Qmin 80 newTop)) (Qmax 10 (Qmin 90 newLeft)).

End Booking.

(** ** The ChatBotView component (src/components/ChatBotView.tsx) *)

Module Chat.

Inductive Sender : Type := USER | GEMINI.

(** [interface ChatMessage] of types.ts *)
Record ChatMessage : Type := mkChatMessage {
  sender : Sender;
  text : string;
}.

(** The [useState] cells ([chat] is [true] once the session exists), and
    the messages passed to [sendChatMessage]. *)
Record View : Type := mkView {
  messages : list ChatMessage;
  input : string;
  isLoading : bool;
  chat : bool;
  sent : list string;
}.

Definition mounted : View := mkView [] "" false false [].

(** The effect of the first render: [setChat(createChatSession())]. *)
Definition initChat (s : View) : View :=
  mkView (messages s) (input s) (isLoading s) true (sent s).

(** [onChange] of the input field. *)
Definition setInput (v : string) (s : View) : View :=
  mkView (messages s) v (isLoading s) (chat s) (sent s).

(** [handleSend] up to its [await]. *)
Definition handleSend (s : View) : View :=
  if Js.blank (input s) || negb (chat s) || isLoading s then s
  else mkView (messages s ++ [mkChatMessage USER (input s)]) "" true (chat s)
              (sent s ++ [input s]).

Definition apology : string :=
  "Sorry, I'm having trouble connecting. Please try again later.".

(** [handleSend] after its [await], by the outcome of [sendChatMessage]
    (the [text] of the response, or what was thrown). *)
Definition settle (o : Retry.Outcome string) (s : View) : View :=
  let reply :=
    match o with
    | Retry.Resolved t => mkChatMessage GEMINI t
    | Retry.Thrown _ => mkChatMessage GEMINI apology
    end in
  mkView (messages s ++ [reply]) (input s) false (chat s) (sent s).

(** [sendChatMessage(chat, message)] is [withRetry] around
    [chat.sendMessage]; [sendMessage k] is the outcome of the invocation
    that [k] invocations for this message precede. *)
Definition sendChatMessage (sendMessage : nat -> Retry.Outcome string)
    (random : nat -> Q) : Retry.Outcome string :=
  Retry.settled (Retry.withRetry sendMessage random).

(** What can happen to the view. *)
Inductive Event : Type :=
| Mount                                   (* the effect of the first render *)
| Input (v : string)                      (* typing; the field is disabled while loading *)
| Send                                    (* the button or the Enter key *)
| Settled (o : Retry.Outcome string).     (* the pending [sendChatMessage] settles *)

Definition enabled (s : View) (e : Event) : bool :=
  match e with
  | Mount => negb (chat s)
  | Input _ => negb (isLoading s)
  | Send => true
  | Settled _ => isLoading s
  end.

Definition step (s : View) (e : Event) : View :=
  match e with
  | Mount => initChat s
  | Input v => setInput v s
  | Send => handleSend s
  | Settled o => settle o s
  end.

Definition run (es : list Event) (s : View) : View :=
  fold_left (fun s e => if enabled s e then step s e else s) es s.

End Chat.

(** ** Vocabulary of the further properties *)

Module Extra.

(** The outcome of an attempt that ends [withRetry]: a value, or an error
    that is not retried. *)
Definition decisive {T : Type} (o : Retry.Outcome T) : Prop :=
  match o with
  | Retry.Resolved _ => True
  | Retry.Thrown e => Retry.retriable e = false
  end.

(** An attempt that throws an error that is retried. *)
Definition transient {T : Type} (o : Retry.Outcome T) : Prop :=
  exists e, o = Retry.Thrown e /\ Retry.retriable e = true.

(** The delays of the first [k] retries. *)
Definition backoffs (random : nat -> Q) (k : nat) : list Q :=
  map (fun j => Retry.backoff j (random j)) (seq 0 k).

(** The time slept in all, in milliseconds. *)
Definition totalDelay (ds : list Q) : Q := fold_right Qplus 0%Q ds.

(** The elements an [Int16Array] shows over a buffer of bytes, the view
    opposite to the one [onaudioprocess] takes with
    [new Uint8Array(int16Array.buffer)]: two bytes per element, low byte
    first, read as a signed integer.  A trailing odd byte shows no
    element. *)
Fixpoint int16View (bytes : list Z) : list Z :=
  match bytes with
  | lo :: hi :: rest => Pcm.wrap16 (lo + 256 * hi) :: int16View rest
  | _ => []
  end.

(** What the playback scheduler consists of: the active set, the cursor,
    and the nodes created, started and stopped so far. *)
Definition scheduler (s : Voice.Session) :=
  (Voice.sourcesRef (Voice.refs s), Voice.nextStartTimeRef (Voice.refs s),
   Voice.created (Voice.log s), Voice.started (Voice.log s),
   Voice.stopped (Voice.log s)).

(** Line 117 of the callback: the cursor is raised to the device time. *)
Definition raiseCursor (currentTime : Q) (s : Voice.Session) : Voice.Session :=
  Voice.withRefs
    (fun r => Voice.setNextStartTime (Qmax (Voice.nextStartTimeRef r) currentTime) r)
    s.

(** The end of a playback. *)
Definition endAt (p : Voice.Playback) : Q := (Voice.startAt p + Voice.duration p)%Q.

(** Each playback of the list starts no earlier than the one before it
    ends. *)
Fixpoint inOrder (ps : list Voice.Playback) : Prop :=
  match ps with
  | [] => True
  | p :: rest =>
      match rest with
      | [] => True
      | q :: _ => (endAt p <= Voice.startAt q)%Q
      end /\ inOrder rest
  end.

(** An event that is not a message signalling an interruption. *)
Definition quiet (e : Voice.Event) : bool :=
  match e with
  | Voice.Message _ m => negb (Voice.interrupted_ m)
  | _ => true
  end.

(** The state of the scheduler that the in-order property rests on: the
    playbacks are in order and none ends after the cursor. *)
Definition scheduled (s : Voice.Session) : Prop :=
  inOrder (Voice.started (Voice.log s)) /\
  Forall (fun p => (endAt p <= Voice.nextStartTimeRef (Voice.refs s))%Q)
         (Voice.started (Voice.log s)).

(** The state of the active set: no node is stopped twice, the nodes of
    the active set and the stopped nodes have been created, no node of the
    active set is stopped, and the nodes started are the nodes created. *)
Definition tracked (s : Voice.Session) : Prop :=
  NoDup (Voice.stopped (Voice.log s)) /\
  (forall n : nat, n ∈ Voice.sourcesRef (Voice.refs s) ->
                   (n < Voice.created (Voice.log s))%nat /\
                   n ∉ Voice.stopped (Voice.log s)) /\
  (forall n : nat, n ∈ Voice.stopped (Voice.log s) ->
                   (n < Voice.created (Voice.log s))%nat) /\
  map Voice.node (Voice.started (Voice.log s)) = seq 0 (Voice.created (Voice.log s)).

(** The values of [enum VehicleType] of types.ts. *)
Definition vehicleName (v : Voice.Vehicle) : string :=
  match v with
  | Voice.BIKE => "BIKE"
  | Voice.AUTO => "AUTO"
  | Voice.CAR => "CAR"
  end.

(** A list of messages handled one after the other, each with the device
    time of its handling. *)
Definition handleAll (decodeAudioData : string -> option Voice.AudioBuffer)
    (ms : list (Q * Voice.LiveServerMessage)) (s : Voice.Session) : Voice.Session :=
  fold_left (fun s tm => fst (Voice.onmessage decodeAudioData (fst tm) (snd tm) s)) ms s.

(** [connectAndListen] has run to its end. *)
Definition finished (s : Voice.Session) : bool :=
  match Voice.pc s with
  | Voice.MediaFailed | Voice.SessionReady | Voice.SessionFailed => true
  | _ => false
  end.

(** A component whose [getUserMedia] was rejected: it holds nothing, has
    created no node, and shows the status of the rejection. *)
Definition micFailed (name : string) (s : Voice.Session) : Prop :=
  Voice.pc s = Voice.MediaFailed /\
  Voice.status (Voice.ui s) = Voice.catchStatus name /\
  Voice.isListening (Voice.ui s) = false /\
  Voice.refs s = Voice.mkRefs false None None false false ∅ 0%Q /\
  Voice.created (Voice.log s) = 0%nat /\
  Voice.toolResponses (Voice.log s) = [] /\
  (Voice.trackStops (Voice.log s), Voice.inputCloses (Voice.log s),
   Voice.outputCloses (Voice.log s), Voice.sessionCloses (Voice.log s))
  = (0, 0, 0, 0)%nat.

(** No handle is held (the active set apart). *)
Definition handlesDown (s : Voice.Session) : Prop :=
  Voice.sessionRef (Voice.refs s) = false /\
  Voice.streamRef (Voice.refs s) = false /\
  Voice.processorRef (Voice.refs s) = false /\
  Voice.isRunning (Voice.inputAudioContextRef (Voice.refs s)) = false /\
  Voice.isRunning (Voice.outputAudioContextRef (Voice.refs s)) = false.

(** ExploreView: nothing of the voice input is held. *)
Definition exploreDown (s : Explore.View) : Prop :=
  Explore.sessionRef (Explore.refs s) = false /\
  Explore.streamRef (Explore.refs s) = false /\
  Explore.processorRef (Explore.refs s) = false /\
  Voice.isRunning (Explore.inputAudioContextRef (Explore.refs s)) = false.

(** ExploreView: the messages of a voice session handled in order, and
    the last transcript among them that is not empty ([before] if there
    is none). *)
Definition hear (ms : list Voice.LiveServerMessage) (s : Explore.View) : Explore.View :=
  fold_left (fun s m => Explore.onmessage m s) ms s.

Definition heard (ms : list Voice.LiveServerMessage) (before : string) : string :=
  fold_left (fun acc m =>
               match Voice.serverContent m ≫= Voice.inputTranscription with
               | Some (String c rest) => String c rest
               | _ => acc
               end) ms before.

(** ChatBotView: [n] exchanges of a user message and a reply. *)
Fixpoint exchanges (n : nat) : list Chat.Sender :=
  match n with
  | O => []
  | S n' => Chat.USER :: Chat.GEMINI :: exchanges n'
  end.

(** BookingView: the driver's position after a list of moves, each with
    its two random draws. *)
Definition driven (draws : list (Q * Q)) : Booking.Position :=
  fold_left (fun p r => Booking.moveDriver (fst r) (snd r) p) draws
            Booking.initialPosition.

(** ChatBotView: the messages of the user. *)
Definition fromUser (m : Chat.ChatMessage) : bool :=
  match Chat.sender m with
  | Chat.USER => true
  | Chat.GEMINI => false
  end.

(** ChatBotView: the conversation is made of whole exchanges, followed by
    the message of the user that waits for its reply while the view is
    loading; the texts passed to [sendChatMessage] are the messages of the
    user, and none of them is blank. *)
Definition conversing (s : Chat.View) : Prop :=
  (exists n, map Chat.sender (Chat.messages s) =
             exchanges n ++ (if Chat.isLoading s then [Chat.USER] else [])) /\
  Chat.sent s = map Chat.text (filter (fun m => fromUser m = true) (Chat.messages s)) /\
  Forall (fun t => Js.blank t = false) (Chat.sent s).

End Extra.

(** ** Values for the examples *)

(** An operation for the examples: overloaded twice, then a value. *)
Definition flaky (k : nat) : Retry.Outcome nat :=
  match k with
  | 0%nat => Retry.Thrown "Error: 503 The model is overloaded."
  | 1%nat => Retry.Thrown "Error: 503 UNAVAILABLE"
  | _ => Retry.Resolved 42%nat
  end.

Definition halves (k : nat) : Q := 1 # 2.

(** The largest binary64 value below 1, [1 - 2^-53], and a generator that
    draws it first and 0 from then on. *)
Definition almostOne : Q := (2 ^ 53 - 1) # (2 ^ 53).

Definition extremes (k : nat) : Q :=
  match k with
  | O => almostOne
  | _ => 0
  end.

(** An operation that reports the unavailability of the service in lower
    case on its first two invocations and returns 42 on the third. *)
Definition lowerCase (k : nat) : Retry.Outcome nat :=
  match k with
  | 0%nat | 1%nat => Retry.Thrown "Error: 503 Service Unavailable"
  | _ => Retry.Resolved 42%nat
  end.

(** A transport encoding for the examples: one character per byte. *)
Definition plainEncode (bytes : list Z) : string :=
  string_of_list_ascii (map (fun b => ascii_of_nat (Z.to_nat b)) bytes).

(** A decoder for the examples: one second of audio at 24 kHz per
    character of its input; input that starts with an exclamation mark
    does not decode. *)
Definition demoDecode (base64 : string) : option Voice.AudioBuffer :=
  if String.prefix "!" base64 then None
  else Some (Voice.mkAudioBuffer (24000 * N.of_nat (String.length base64)) 24000).

(** A host that shows the chat view, with a booking form filled in. *)
Definition demoHost : Voice.Host :=
  Voice.mkHost "Fort" "Bus Stand" Voice.CAR Voice.CHAT true.

(** Messages with one field set. *)
Definition audioMessage (base64 : string) : Voice.LiveServerMessage :=
  Voice.mkMessage
    (Some (Voice.mkServerContent None None (Some [Voice.mkPart (Some base64)])
                                 false false))
    None.

Definition interruptedMessage : Voice.LiveServerMessage :=
  Voice.mkMessage (Some (Voice.mkServerContent None None None true false)) None.

Definition turnCompleteMessage : Voice.LiveServerMessage :=
  Voice.mkMessage (Some (Voice.mkServerContent None None None false true)) None.

Definition toolCallMessage (fcs : list Voice.FunctionCall) : Voice.LiveServerMessage :=
  Voice.mkMessage None (Some fcs).

(** A session that is connected and listening. *)
Definition demoListening : Voice.Session :=
  Voice.run demoDecode
    [Voice.Start; Voice.MediaGranted; Voice.SessionResolved; Voice.Open]
    (Voice.mounted demoHost).

(** Messages for the examples of the transcripts. *)
Definition transcriptMessage (user assistant : option string) : Voice.LiveServerMessage :=
  Voice.mkMessage (Some (Voice.mkServerContent user assistant None false false)) None.

(** A session in the middle of a turn: both transcripts are set. *)
(** A session whose [ai.live.connect] has not settled yet, and one whose
    [ai.live.connect] was refused. *)
Definition demoConnecting : Voice.Session :=
  Voice.run demoDecode [Voice.Start; Voice.MediaGranted] (Voice.mounted demoHost).

Definition demoRefused : Voice.Session :=
  Voice.run demoDecode
    [Voice.Start; Voice.MediaGranted; Voice.SessionRejected "Error"]
    (Voice.mounted demoHost).

Definition demoMidTurn : Voice.Session :=
  fst (Voice.onmessage demoDecode 1
         (transcriptMessage (Some "Book a car"%string) (Some "Sure."%string))
         demoListening).

(** A message that completes the turn, asks for a bike and carries an
    audio frame. *)
Definition busyMessage (base64 : string) : Voice.LiveServerMessage :=
  Voice.mkMessage
    (Some (Voice.mkServerContent None None (Some [Voice.mkPart (Some base64)])
                                 false true))
    (Some [Voice.mkFunctionCall "call-1" "controlRide"
             (Some {[ "vehicle"%string := "BIKE"%string ]})]).

(** Function calls for the examples. *)
Definition weatherCall : Voice.FunctionCall :=
  Voice.mkFunctionCall "call-7" "getWeather" (Some ∅).

Definition truckArgs (pickup : string) : gmap string string :=
  <[ "pickup"%string := pickup ]>
    (<[ "destination"%string := "Temple"%string ]>
       {[ "vehicle"%string := "TRUCK"%string ]}).

Definition truckCall (pickup : string) : Voice.FunctionCall :=
  Voice.mkFunctionCall "call-8" "controlRide" (Some (truckArgs pickup)).

(** Operations for the examples: one whose key is refused, one that stays
    overloaded. *)
Definition refused (k : nat) : Retry.Outcome nat :=
  Retry.Thrown "Error: 403 API key not valid".

Definition swamped (k : nat) : Retry.Outcome nat :=
  Retry.Thrown "Error: 503 The model is overloaded.".

(** A run for the examples: two frames with one that does not decode in
    between, then the component is stopped. *)
Definition demoRun : list Voice.Event :=
  [Voice.Start; Voice.MediaGranted; Voice.SessionResolved; Voice.Open;
   Voice.Message 0 (audioMessage "A"); Voice.Message 5 (audioMessage "!corrupt");
   Voice.Message 6 (audioMessage "BB"); Voice.Ended 0; Voice.Stop].

(** An ExploreView in which the microphone is on and the session is open,
    with a query typed before. *)
Definition demoExplore : Explore.View :=
  Explore.sessionResolved
    (Explore.mediaGranted
       (Explore.startListening
          (Explore.mkView
             (Explore.mkUi "old forts" false None [] None None false)
             (Explore.mkRefs false None false false "")
             (Explore.mkLog [] 0 0 0 0)))).

(** A chat backend that is overloaded once and then answers. *)
Definition busyChat (k : nat) : Retry.Outcome string :=
  match k with
  | 0%nat => Retry.Thrown "Error: 503 The model is overloaded."
  | _ => Retry.Resolved "Namaste!"
  end.

(* ===================================================================== *)
(** * Part II: properties                                                 *)
(* ===================================================================== *)

(** ** [withRetry] *)

(** ** Binary64 rounding *)

Section Float64Facts.
Import Float64.

Lemma two_not_0 : ~ (2 == 0)%Q.
Proof. discriminate. Qed.

Lemma pow2_pos k : (0 < pow2 k)%Q.
Proof. apply Qpower_0_lt. reflexivity. Qed.

Lemma pow2_inject (k : Z) : 0 <= k -> (inject_Z (2 ^ k) == pow2 k)%Q.
Proof. intros Hk. unfold pow2. rewrite Zpower_Qpower by exact Hk. reflexivity. Qed.

Lemma pow2_add (a b : Z) : (pow2 (a + b) == pow2 a * pow2 b)%Q.
Proof. apply Qpower_plus, two_not_0. Qed.

Lemma pow2_scale k : k <= 0 -> (inject_Z (2 ^ (- k)) * pow2 k == 1)%Q.
Proof.
  intros Hk. rewrite pow2_inject by lia. rewrite <- pow2_add.
  replace (- k + k) with 0 by lia. reflexivity.
Qed.

(** [exponent] finds the binade. *)
Lemma exponent_spec (x : Q) :
  (0 < x)%Q -> (pow2 (exponent x) <= x < pow2 (exponent x + 1))%Q.
Proof.
  intros Hpos. unfold exponent. cbv zeta.
  destruct x as [a b]. cbn [Qnum Qden].
  assert (Ha : 0 < a) by (unfold Qlt in Hpos; cbn in Hpos; lia).
  pose proof (Z.log2_spec a Ha) as (La & Ua).
  pose proof (Z.log2_spec (Z.pos b) (Pos2Z.is_pos b)) as (Lb & Ub).
  pose proof (Z.log2_nonneg a) as Na.
  pose proof (Z.log2_nonneg (Z.pos b)) as Nb.
  set (la := Z.log2 a) in *. set (lb := Z.log2 (Z.pos b)) in *.
  rewrite Zle_Qle, pow2_inject in La, Lb by lia.
  rewrite Zlt_Qlt, pow2_inject in Ua, Ub by lia.
  pose proof (Qmake_Qdiv a b) as Ex.
  set (A := inject_Z a) in *. set (B := inject_Z (Z.pos b)) in *.
  set (x := a # b) in *.
  assert (HB : (0 < B)%Q).
  { subst B. change 0%Q with (inject_Z 0). rewrite <- Zlt_Qlt. lia. }
  assert (ExB : (x * B == A)%Q) by (rewrite Ex; field; lra).
  pose proof (pow2_pos (la - lb)) as P0.
  pose proof (pow2_pos (la - lb - 1)) as P1.
  pose proof (pow2_pos (la - lb + 1)) as P2.
  pose proof (pow2_pos lb) as P3.
  assert (E1 : (pow2 (Z.succ la) == pow2 (la - lb + 1) * pow2 lb)%Q).
  { rewrite <- pow2_add. replace (la - lb + 1 + lb) with (Z.succ la) by lia.
    reflexivity. }
  assert (E2 : (pow2 la == pow2 (la - lb - 1) * pow2 (Z.succ lb))%Q).
  { rewrite <- pow2_add. replace (la - lb - 1 + Z.succ lb) with la by lia.
    reflexivity. }
  assert (Hup : (x < pow2 (la - lb + 1))%Q).
  { apply Qnot_le_lt. intros Hc.
    assert ((pow2 (la - lb + 1) * pow2 lb <= x * B)%Q).
    { apply Qle_trans with (pow2 (la - lb + 1) * B)%Q.
      - rewrite !(Qmult_comm (pow2 (la - lb + 1))).
        apply Qmult_le_compat_r; lra.
      - apply Qmult_le_compat_r; lra. }
    lra. }
  assert (Hlow : (pow2 (la - lb - 1) <= x)%Q).
  { apply Qnot_lt_le. intros Hc.
    assert ((x * B < pow2 (la - lb - 1) * pow2 (Z.succ lb))%Q).
    { apply Qlt_le_trans with (pow2 (la - lb - 1) * B)%Q.
      - apply Qmult_lt_compat_r; lra.
      - rewrite !(Qmult_comm (pow2 (la - lb - 1))).
        apply Qmult_le_compat_r; lra. }
    lra. }
  destruct (Qle_bool (pow2 (la - lb)) x) eqn:E.
  - apply Qle_bool_iff in E. split; assumption.
  - split; [exact Hlow|].
    replace (la - lb - 1 + 1) with (la - lb) by lia.
    apply Qnot_le_lt. intros Hc. apply Qle_bool_iff in Hc. congruence.
Qed.

Lemma exponent_lt (x : Q) (k : Z) :
  (0 < x)%Q -> (x < pow2 k)%Q -> exponent x < k.
Proof.
  intros Hpos Hlt. destruct (exponent_spec x Hpos) as (Hl & _).
  apply (Qpower_lt_compat_l_inv 2); [|reflexivity].
  fold (pow2 (exponent x)). fold (pow2 k). lra.
Qed.

Lemma exponent_ge (x : Q) (k : Z) :
  (0 < x)%Q -> (pow2 k <= x)%Q -> k <= exponent x.
Proof.
  intros Hpos Hle. destruct (exponent_spec x Hpos) as (_ & Hu).
  assert (H : k < exponent x + 1); [|lia].
  apply (Qpower_lt_compat_l_inv 2); [|reflexivity].
  fold (pow2 (exponent x + 1)). fold (pow2 k). lra.
Qed.

Lemma roundEven_le (x : Q) (n : Z) : (x <= inject_Z n)%Q -> roundEven x <= n.
Proof.
  intros H. unfold roundEven. cbv zeta.
  pose proof (Qfloor_le x) as Hf.
  assert (Hfn : Qfloor x <= n).
  { rewrite Zle_Qle. eapply Qle_trans; eassumption. }
  destruct (x - inject_Z (Qfloor x) ?= 1 # 2)%Q eqn:E; [| exact Hfn |].
  - apply Qeq_alt in E.
    assert (Hlt : (inject_Z (Qfloor x) < inject_Z n)%Q) by lra.
    rewrite <- Zlt_Qlt in Hlt. destruct (Z.even (Qfloor x)); lia.
  - apply Qgt_alt in E.
    assert (Hlt : (inject_Z (Qfloor x) < inject_Z n)%Q) by lra.
    rewrite <- Zlt_Qlt in Hlt. lia.
Qed.

Lemma roundEven_ge (x : Q) (n : Z) : (inject_Z n <= x)%Q -> n <= roundEven x.
Proof.
  intros H. unfold roundEven. cbv zeta.
  pose proof (Qlt_floor x) as Hf.
  assert (Hfn : n < Qfloor x + 1).
  { rewrite Zlt_Qlt. eapply Qle_lt_trans; eassumption. }
  destruct (x - inject_Z (Qfloor x) ?= 1 # 2)%Q; [|lia|lia].
  destruct (Z.even (Qfloor x)); lia.
Qed.

(** [roundEven] is within one half of its argument. *)
Lemma roundEven_near (x : Q) :
  (x - (1 # 2) <= inject_Z (roundEven x) <= x + (1 # 2))%Q.
Proof.
  unfold roundEven. cbv zeta.
  pose proof (Qfloor_le x) as Hl. pose proof (Qlt_floor x) as Hu.
  rewrite inject_Z_plus in Hu. change (inject_Z 1) with 1%Q in Hu.
  destruct (x - inject_Z (Qfloor x) ?= 1 # 2)%Q eqn:E.
  - apply Qeq_alt in E.
    destruct (Z.even (Qfloor x)); rewrite ?inject_Z_plus;
      change (inject_Z 1) with 1%Q; lra.
  - apply Qlt_alt in E. lra.
  - apply Qgt_alt in E. rewrite inject_Z_plus. change (inject_Z 1) with 1%Q. lra.
Qed.

(** A tie goes to the even neighbour. *)
Lemma roundEven_tie (x : Q) :
  (x - inject_Z (Qfloor x) == 1 # 2)%Q -> Z.even (roundEven x) = true.
Proof.
  intros H. unfold roundEven. cbv zeta.
  apply Qeq_alt in H. rewrite H.
  destruct (Z.even (Qfloor x)) eqn:E; [exact E|].
  rewrite Z.even_add, E. reflexivity.
Qed.

Section Positive.
Variable x : Q.
Hypothesis Hpos : (0 < x)%Q.

Lemma round_positive :
  round x = (inject_Z (roundEven (x / pow2 (exponent x - 52))) *
             pow2 (exponent x - 52))%Q.
Proof.
  unfold round. destruct (Qnum x) eqn:E; try reflexivity;
    exfalso; unfold Qlt in Hpos; rewrite E in Hpos; cbn in Hpos; lia.
Qed.

(** The significand of [x] in units of the last place has 53 bits. *)
Lemma significand_range :
  (inject_Z (2 ^ 52) <= x / pow2 (exponent x - 52) < inject_Z (2 ^ 53))%Q.
Proof.
  destruct (exponent_spec x Hpos) as (Hl & Hu).
  pose proof (pow2_pos (exponent x - 52)) as Pu.
  rewrite !pow2_inject by lia.
  assert (E1 : (pow2 (exponent x) == pow2 52 * pow2 (exponent x - 52))%Q).
  { rewrite <- pow2_add. replace (52 + (exponent x - 52)) with (exponent x) by lia.
    reflexivity. }
  assert (E2 : (pow2 (exponent x + 1) == pow2 53 * pow2 (exponent x - 52))%Q).
  { rewrite <- pow2_add.
    replace (53 + (exponent x - 52)) with (exponent x + 1) by lia. reflexivity. }
  set (u := pow2 (exponent x - 52)) in *.
  split.
  - apply Qle_shift_div_l; [exact Pu|]. lra.
  - apply Qlt_shift_div_r; [exact Pu|]. lra.
Qed.

(** The result is a binary64 value of the binade of [x], or the first
    value of the next binade. *)
Lemma round_significand :
  2 ^ 52 <= roundEven (x / pow2 (exponent x - 52)) <= 2 ^ 53.
Proof.
  destruct significand_range as (Hl & Hu).
  split; [apply roundEven_ge; exact Hl | apply roundEven_le; lra].
Qed.

(** The result is within half a unit of the last place of [x]. *)
Lemma round_near :
  (x - pow2 (exponent x - 53) <= round x <= x + pow2 (exponent x - 53))%Q.
Proof.
  rewrite round_positive.
  pose proof (pow2_pos (exponent x - 52)) as Pu.
  assert (E : (pow2 (exponent x - 52) == 2 * pow2 (exponent x - 53))%Q).
  { replace (exponent x - 52) with (1 + (exponent x - 53)) by lia.
    rewrite pow2_add. reflexivity. }
  pose proof (roundEven_near (x / pow2 (exponent x - 52))) as (Hl & Hu).
  set (u := pow2 (exponent x - 52)) in *.
  set (n := inject_Z (roundEven (x / u))) in *.
  assert (Ex : (x == x / u * u)%Q) by (field; lra).
  assert (H1 : ((x / u - (1 # 2)) * u <= n * u)%Q)
    by (apply Qmult_le_compat_r; lra).
  assert (H2 : (n * u <= (x / u + (1 # 2)) * u)%Q)
    by (apply Qmult_le_compat_r; lra).
  set (y := (x / u)%Q) in *. lra.
Qed.
End Positive.

(** Rounding does not pass an integer: the integers up to [2^53] are
    binary64 values. *)
Lemma round_integer (x : Q) (c : Z) :
  (0 <= x)%Q -> (x < inject_Z (2 ^ 53))%Q ->
  ((x <= inject_Z c)%Q -> (round x <= inject_Z c)%Q) /\
  ((inject_Z c <= x)%Q -> (inject_Z c <= round x)%Q).
Proof.
  intros H0 Hlt.
  destruct (Qlt_le_dec 0 x) as [Hpos|Hneg].
  - rewrite (round_positive x Hpos).
    assert (He : exponent x < 53).
    { apply exponent_lt; [exact Hpos|]. rewrite <- pow2_inject by lia. exact Hlt. }
    set (k := exponent x - 52) in *.
    assert (Hk : k <= 0) by lia.
    pose proof (pow2_pos k) as Hu. pose proof (pow2_scale k Hk) as Hs.
    set (u := pow2 k) in *. set (w := 2 ^ (- k)) in *.
    assert (Hw : (0 < inject_Z w)%Q).
    { change 0%Q with (inject_Z 0). rewrite <- Zlt_Qlt.
      apply Z.pow_pos_nonneg; lia. }
    assert (Hdiv : (x / u == x * inject_Z w)%Q).
    { assert (E1 : (x / u * u == x)%Q) by (field; lra).
      assert (E2 : (x * inject_Z w * u == x)%Q)
        by (rewrite <- Qmult_assoc, Hs; ring).
      apply (Qmult_inj_r _ _ u); [lra|]. rewrite E1, E2. reflexivity. }
    assert (E : (inject_Z c == inject_Z c * inject_Z w * u)%Q).
    { rewrite <- Qmult_assoc, Hs. ring. }
    split; intros H.
    + assert (Hr : roundEven (x / u) <= c * w).
      { apply roundEven_le. rewrite Hdiv, inject_Z_mult.
        apply Qmult_le_compat_r; [exact H | lra]. }
      rewrite Zle_Qle, inject_Z_mult in Hr.
      rewrite E. apply Qmult_le_compat_r; [exact Hr | lra].
    + assert (Hr : c * w <= roundEven (x / u)).
      { apply roundEven_ge. rewrite Hdiv, inject_Z_mult.
        apply Qmult_le_compat_r; [exact H | lra]. }
      rewrite Zle_Qle, inject_Z_mult in Hr.
      rewrite E. apply Qmult_le_compat_r; [exact Hr | lra].
  - assert (En : Qnum x = 0).
    { unfold Qle in H0, Hneg. cbn in H0, Hneg. lia. }
    unfold round. rewrite En.
    assert (Hx : (x == 0)%Q) by (unfold Qeq; rewrite En; reflexivity).
    split; intros H; lra.
Qed.
End Float64Facts.

(** ** [withRetry] *)

Section RetryFacts.
Import Retry.
Context {T : Type}.
Variable apiCall : nat -> Outcome T.
Variable random : nat -> Q.

(** The delay before retry [i] lies between [1000 * 2^i] and
    [1000 * 2^i + 1000], both ends included: the sum is rounded, and it
    can be rounded up to the upper end. *)
Lemma backoff_bounds (i : nat) (r : Q) :
  (i <= 42)%nat -> (0 <= r < 1)%Q ->
  (inject_Z (1000 * 2 ^ Z.of_nat i) <= backoff i r
   <= inject_Z (1000 * 2 ^ Z.of_nat i) + 1000)%Q.
Proof.
  intros Hi Hr. unfold backoff, Float64.add, Float64.mul.
  assert (B53 : (inject_Z (2 ^ 53) == 9007199254740992)%Q) by reflexivity.
  assert (Hp : 1 <= 2 ^ Z.of_nat i <= 2 ^ 42).
  { split; [apply Z.pow_le_mono_r with (b := 0); lia
           | apply Z.pow_le_mono_r; lia]. }
  change (2 ^ 42) with 4398046511104 in Hp.
  set (c := 1000 * 2 ^ Z.of_nat i).
  assert (Hc : 1000 <= c <= 4398046511104000) by (subst c; lia).
  assert (Qc : (1000 <= inject_Z c <= 4398046511104000)%Q).
  { split; [change 1000%Q with (inject_Z 1000)
           | change 4398046511104000%Q with (inject_Z 4398046511104000)];
      rewrite <- Zle_Qle; lia. }
  assert (Ec : (inject_Z (2 ^ Z.of_nat i) * 1000 == inject_Z c)%Q).
  { subst c. rewrite inject_Z_mult. change (inject_Z 1000) with 1000%Q. ring. }
  destruct (round_integer (inject_Z (2 ^ Z.of_nat i) * 1000) c) as (Bu & Bl);
    [lra | lra |].
  specialize (Bu ltac:(lra)). specialize (Bl ltac:(lra)).
  destruct (round_integer (r * 1000) 0) as (_ & Yl); [lra | lra |].
  destruct (round_integer (r * 1000) 1000) as (Yu & _); [lra | lra |].
  change (inject_Z 0) with 0%Q in Yl. change (inject_Z 1000) with 1000%Q in Yu.
  specialize (Yl ltac:(lra)). specialize (Yu ltac:(lra)).
  set (b := Float64.round (inject_Z (2 ^ Z.of_nat i) * 1000)) in *.
  set (y := Float64.round (r * 1000)) in *.
  destruct (round_integer (b + y) c) as (_ & Sl); [lra | lra |].
  destruct (round_integer (b + y) (c + 1000)) as (Su & _); [lra | lra |].
  rewrite inject_Z_plus in Su. change (inject_Z 1000) with 1000%Q in Su.
  split; [apply Sl | apply Su]; lra.
Qed.

(** C4, as the code has it.  An operation that throws, on its first two
    invocations, an error whose text contains [overloaded] or
    [UNAVAILABLE], and returns [v] on the third: [withRetry] returns [v],
    has invoked the operation three times and has slept twice, for
    [1000 * 2^0 + random * 1000] and then [1000 * 2^1 + random * 1000]
    milliseconds as binary64 arithmetic computes them.  Whatever
    [Math.random] drew from [0, 1), the first delay lies between 1000 and
    2000 and the second between 2000 and 3000, so the second is never
    shorter than the first, and it is longer unless both are 2000. *)
Theorem C4_success_after_two_transient_failures (e0 e1 : string) (v : T) :
  apiCall 0%nat = Thrown e0 -> retriable e0 = true ->
  apiCall 1%nat = Thrown e1 -> retriable e1 = true ->
  apiCall 2%nat = Resolved v ->
  (forall k, 0 <= random k < 1)%Q ->
  let r := withRetry apiCall random in
  settled r = Resolved v /\
  calls r = 3%nat /\
  exists d0 d1,
    delays r = [d0; d1] /\
    d0 = Float64.add (Float64.mul (inject_Z (2 ^ 0)) 1000)
                     (Float64.mul (random 0%nat) 1000) /\
    d1 = Float64.add (Float64.mul (inject_Z (2 ^ 1)) 1000)
                     (Float64.mul (random 1%nat) 1000) /\
    (1000 <= d0 <= 2000)%Q /\
    (2000 <= d1 <= 3000)%Q /\
    (d0 <= d1)%Q /\
    ((d0 < d1)%Q \/ (d0 == 2000 /\ d1 == 2000)%Q).
Proof.
  intros A0 R0 A1 R1 A2 Hrand r. subst r.
  unfold withRetry, MAX_RETRIES. simpl.
  rewrite A0, R0, A1, R1, A2. simpl.
  repeat split.
  exists (backoff 0 (random 0%nat)), (backoff 1 (random 1%nat)).
  split; [reflexivity|]. split; [reflexivity|]. split; [reflexivity|].
  pose proof (backoff_bounds 0 (random 0%nat) ltac:(lia) (Hrand 0%nat)) as B0.
  pose proof (backoff_bounds 1 (random 1%nat) ltac:(lia) (Hrand 1%nat)) as B1.
  change (inject_Z (1000 * 2 ^ Z.of_nat 0)) with 1000%Q in B0.
  change (inject_Z (1000 * 2 ^ Z.of_nat 1)) with 2000%Q in B1.
  set (d0 := backoff 0 (random 0%nat)) in *.
  set (d1 := backoff 1 (random 1%nat)) in *.
  split; [lra|]. split; [lra|]. split; [lra|].
  destruct (Qlt_le_dec d0 d1) as [Hlt|Hge]; [left; exact Hlt|].
  right. split; lra.
Qed.
End RetryFacts.

(** C4 at an operation that is overloaded, then unavailable, then returns
    42, with every random draw equal to 1/2. *)
Lemma C4_witness :
  let r := Retry.withRetry flaky halves in
  Retry.settled r = Retry.Resolved 42%nat /\
  Retry.calls r = 3%nat /\
  exists d0 d1,
    Retry.delays r = [d0; d1] /\ (d0 == 1500)%Q /\ (d1 == 2500)%Q /\ (d0 <= d1)%Q.
Proof.
  destruct (C4_success_after_two_transient_failures flaky halves
              "Error: 503 The model is overloaded." "Error: 503 UNAVAILABLE" 42%nat)
    as (Hs & Hc & d0 & d1 & Hd & E0 & E1 & _ & _ & Hle & _).
  - reflexivity.
  - reflexivity.
  - reflexivity.
  - reflexivity.
  - reflexivity.
  - intros k. unfold halves. split; [discriminate | reflexivity].
  - cbv zeta. split; [exact Hs|]. split; [exact Hc|].
    exists d0, d1. split; [exact Hd|].
    split; [rewrite E0; vm_compute; reflexivity|].
    split; [rewrite E1; vm_compute; reflexivity|].
    exact Hle.
Defined.

(** C4, as the specification words it, against the code.  When
    [Math.random] draws [1 - 2^-53] and then 0, the first delay is
    [1000 + 999.99...] rounded to binary64, which is 2000, and the second
    is 2000: the delays are equal, not strictly increasing.  And an error
    that reports the unavailability of the service in other letters than
    [UNAVAILABLE] is not retried: the operation is invoked once and its
    error is thrown. *)
Lemma C4_counterexample :
  let r := Retry.withRetry flaky extremes in
  (0 <= extremes 0%nat < 1)%Q /\ (0 <= extremes 1%nat < 1)%Q /\
  Retry.settled r = Retry.Resolved 42%nat /\
  Retry.calls r = 3%nat /\
  (exists d0 d1,
     Retry.delays r = [d0; d1] /\ (d0 == 2000)%Q /\ (d1 == 2000)%Q /\
     ~ (d0 < d1)%Q) /\
  Retry.retriable "Error: 503 Service Unavailable" = false /\
  Retry.settled (Retry.withRetry lowerCase halves) =
    Retry.Thrown "Error: 503 Service Unavailable" /\
  Retry.calls (Retry.withRetry lowerCase halves) = 1%nat.
Proof.
  cbv zeta.
  split; [split; [discriminate | reflexivity]|].
  split; [split; [discriminate | reflexivity]|].
  split; [reflexivity|]. split; [reflexivity|].
  split; [|repeat split].
  exists (Retry.backoff 0 almostOne), (Retry.backoff 1 0).
  split; [reflexivity|].
  split; [vm_compute; reflexivity|]. split; [vm_compute; reflexivity|].
  vm_compute. discriminate.
Qed.

(** ** The capture callback *)

Section PcmFacts.
Import Pcm.

Lemma truncate_scaled_range (x : Q) :
  (-1 <= x < 1)%Q -> -32768 <= truncate (x * 32768)%Q <= 32767.
Proof.
  destruct x as [n d]. unfold Qle, Qlt, truncate. simpl. intros [Hlo Hhi].
  assert (Hd : 0 < Z.pos d) by lia.
  replace (Z.pos (d * 1)) with (Z.pos d) by lia.
  pose proof (Z.quot_rem' (n * 32768) (Z.pos d)) as E.
  destruct (Z_le_gt_dec 0 n) as [Hn | Hn].
  - pose proof (Z.rem_bound_pos (n * 32768) (Z.pos d) ltac:(lia) Hd) as B.
    set (q := Z.quot (n * 32768) (Z.pos d)) in *.
    set (r := Z.rem (n * 32768) (Z.pos d)) in *.
    nia.
  - pose proof (Z.rem_bound_pos_neg (n * 32768) (Z.pos d) Hd ltac:(lia)) as B.
    set (q := Z.quot (n * 32768) (Z.pos d)) in *.
    set (r := Z.rem (n * 32768) (Z.pos d)) in *.
    nia.
Qed.

Lemma wrap16_in_range (v : Z) : -32768 <= v <= 32767 -> wrap16 v = v.
Proof.
  intros H. unfold wrap16.
  destruct (Z_le_gt_dec 0 v).
  - rewrite Z.mod_small by lia.
    destruct (Z.ltb_spec v 32768); lia.
  - assert (E : v mod 65536 = v + 65536).
    { symmetry. apply (Z.mod_unique v 65536 (-1)); lia. }
    rewrite E. destruct (Z.ltb_spec (v + 65536) 32768); lia.
Qed.

Lemma bytes16_little_endian (v : Z) :
  bytes16 v = [v mod 256; (v / 256) mod 256].
Proof.
  unfold bytes16. cbv zeta.
  f_equal; [|f_equal]; Z.div_mod_to_equations; lia.
Qed.

Lemma pcmBytes_cons (x : Q) (xs : list Q) :
  pcmBytes (x :: xs) = bytes16 (ToInt16 (x * 32768)%Q) ++ pcmBytes xs.
Proof. reflexivity. Qed.

(** C7, as the code has it.  For samples in [-1, 1) each sample [x]
    becomes the integer [x * 32768] truncated towards zero, which lies in
    the int16 range without any clamping; the integers are laid out low
    byte first in two's complement, and the bytes go through the
    transport encoding. *)
Theorem C7_encode_scales_by_32768_and_truncates
    (encode : list Z -> string) (inputData : list Q) :
  Forall (fun x => (-1 <= x < 1)%Q) inputData ->
  Forall (fun x => -32768 <= truncate (x * 32768)%Q <= 32767) inputData /\
  data (onaudioprocess encode inputData) =
    encode (flat_map (fun x => let v := truncate (x * 32768)%Q in
                               [v mod 256; (v / 256) mod 256]) inputData) /\
  mimeType (onaudioprocess encode inputData) = "audio/pcm;rate=16000"%string.
Proof.
  intros H. split; [|split]; [| |reflexivity].
  - eapply Forall_impl; [exact H|]. intros x Hx. simpl in Hx.
    apply truncate_scaled_range. exact Hx.
  - unfold onaudioprocess. simpl. f_equal.
    induction H as [|x xs Hx Hxs IH]; [reflexivity|].
    rewrite pcmBytes_cons, IH.
    unfold ToInt16. rewrite wrap16_in_range by (apply truncate_scaled_range; exact Hx).
    rewrite bytes16_little_endian. reflexivity.
Qed.
End PcmFacts.

(** C7 at the samples 0.5 and -0.75. *)
Lemma C7_witness :
  Forall (fun x => -32768 <= Pcm.truncate (x * 32768)%Q <= 32767)
         [(1 # 2)%Q; (- (3 # 4))%Q] /\
  Pcm.data (Pcm.onaudioprocess plainEncode [(1 # 2)%Q; (- (3 # 4))%Q]) =
    plainEncode (flat_map (fun x => let v := Pcm.truncate (x * 32768)%Q in
                                    [v mod 256; (v / 256) mod 256])
                          [(1 # 2)%Q; (- (3 # 4))%Q]) /\
  Pcm.mimeType (Pcm.onaudioprocess plainEncode [(1 # 2)%Q; (- (3 # 4))%Q]) =
    "audio/pcm;rate=16000"%string.
Proof.
  apply (C7_encode_scales_by_32768_and_truncates plainEncode
           [(1 # 2)%Q; (- (3 # 4))%Q]).
  repeat constructor; simpl; unfold Qle, Qlt; simpl; lia.
Defined.

(** C7, as the specification words it, against the code: a full-scale
    sample [1.0] is encoded as -32768 where [round(1.0 * 32767)] clamped
    is 32767, and the sample [0.75] as 24576 where [round(0.75 * 32767)]
    is 24575. *)
Lemma C7_counterexample :
  Pcm.ToInt16 (1 * 32768)%Q = -32768 /\ Pcm.spec_sample 1%Q = 32767 /\
  Pcm.pcmBytes [1%Q] = [0; 128] /\
  Pcm.ToInt16 ((3 # 4) * 32768)%Q = 24576 /\ Pcm.spec_sample (3 # 4)%Q = 24575 /\
  ~ (forall x : Q, (-1 <= x <= 1)%Q ->
       Pcm.ToInt16 (x * 32768)%Q = Pcm.spec_sample x).
Proof.
  assert (E1 : Pcm.ToInt16 (1 * 32768)%Q = -32768) by reflexivity.
  assert (E2 : Pcm.spec_sample 1%Q = 32767) by reflexivity.
  repeat split; try reflexivity.
  intros H. specialize (H 1%Q). rewrite E1, E2 in H.
  assert (-32768 = 32767) by (apply H; split; discriminate).
  discriminate.
Qed.

(** ** The [onmessage] callback *)

Section HandlerFacts.
Import Voice Spec.

(** *** What each part of the callback leaves alone *)

Lemma onTranscription_frame m s :
  refs (onTranscription m s) = refs s /\
  host (onTranscription m s) = host s /\
  log (onTranscription m s) = log s /\
  pc (onTranscription m s) = pc s /\
  status (ui (onTranscription m s)) = status (ui s) /\
  isListening (ui (onTranscription m s)) = isListening (ui s).
Proof.
  unfold onTranscription.
  destruct (serverContent m ≫= inputTranscription),
           (serverContent m ≫= outputTranscription); repeat split.
Qed.

Lemma dispatch_frame fc s :
  ui (dispatch fc s) = ui s /\
  refs (dispatch fc s) = refs s /\
  pc (dispatch fc s) = pc s /\
  created (log (dispatch fc s)) = created (log s) /\
  started (log (dispatch fc s)) = started (log s) /\
  stopped (log (dispatch fc s)) = stopped (log s).
Proof.
  unfold dispatch.
  destruct (fc_args fc) as [args|]; [|repeat split].
  destruct (String.eqb (fc_name fc) "controlRide"); [|repeat split].
  unfold thenSendToolResponse. cbn [pc withHost].
  destruct (pc s) eqn:E; repeat split; exact E.
Qed.

Lemma onToolCall_frame m s :
  ui (onToolCall m s) = ui s /\
  refs (onToolCall m s) = refs s /\
  pc (onToolCall m s) = pc s /\
  created (log (onToolCall m s)) = created (log s) /\
  started (log (onToolCall m s)) = started (log s) /\
  stopped (log (onToolCall m s)) = stopped (log s).
Proof.
  unfold onToolCall. destruct (toolCall m) as [fcs|]; [|repeat split].
  revert s. induction fcs as [|fc fcs IH]; intros s; [repeat split|].
  simpl. destruct (IH (dispatch fc s)) as (I1 & I2 & I3 & I4 & I5 & I6).
  destruct (dispatch_frame fc s) as (E1 & E2 & E3 & E4 & E5 & E6).
  repeat split; congruence.
Qed.

Lemma onTurnComplete_frame m s :
  refs (onTurnComplete m s) = refs s /\
  host (onTurnComplete m s) = host s /\
  log (onTurnComplete m s) = log s /\
  pc (onTurnComplete m s) = pc s /\
  status (ui (onTurnComplete m s)) = status (ui s) /\
  assistantResponse (ui (onTurnComplete m s)) = assistantResponse (ui s) /\
  isListening (ui (onTurnComplete m s)) = isListening (ui s).
Proof. unfold onTurnComplete. destruct (turnComplete_ m); repeat split. Qed.

Lemma onInterrupted_frame m s :
  host (onInterrupted m s) = host s /\
  pc (onInterrupted m s) = pc s /\
  status (ui (onInterrupted m s)) = status (ui s) /\
  userTranscription (ui (onInterrupted m s)) = userTranscription (ui s) /\
  isListening (ui (onInterrupted m s)) = isListening (ui s) /\
  created (log (onInterrupted m s)) = created (log s) /\
  started (log (onInterrupted m s)) = started (log s) /\
  toolResponses (log (onInterrupted m s)) = toolResponses (log s) /\
  outputAudioContextRef (refs (onInterrupted m s)) = outputAudioContextRef (refs s).
Proof. unfold onInterrupted. destruct (interrupted_ m); repeat split. Qed.

(** The parts after the audio block, for a message that does not signal
    an interruption: the scheduler is not touched. *)
Lemma afterAudio_scheduler m s :
  interrupted_ m = false ->
  refs (afterAudio m s) = refs s /\
  created (log (afterAudio m s)) = created (log s) /\
  started (log (afterAudio m s)) = started (log s) /\
  stopped (log (afterAudio m s)) = stopped (log s).
Proof.
  intros Hi. unfold afterAudio, onInterrupted. rewrite Hi.
  destruct (onTurnComplete_frame m (onToolCall m s)) as (-> & _ & -> & _).
  destruct (onToolCall_frame m s) as (_ & -> & _ & -> & -> & ->).
  repeat split.
Qed.

(** What [sessionPromise.then] does with a response, by the state of the
    promise. *)
Lemma thenSendToolResponse_cases r s :
  match pc s with
  | SessionReady =>
      toolResponses (log (thenSendToolResponse r s)) = toolResponses (log s) ++ [r] /\
      waiting (thenSendToolResponse r s) = waiting s
  | AwaitingSession =>
      toolResponses (log (thenSendToolResponse r s)) = toolResponses (log s) /\
      waiting (thenSendToolResponse r s) = waiting s ++ [r]
  | _ =>
      toolResponses (log (thenSendToolResponse r s)) = toolResponses (log s) /\
      waiting (thenSendToolResponse r s) = waiting s
  end.
Proof. unfold thenSendToolResponse. destruct (pc s); split; reflexivity. Qed.

Lemma thenSendToolResponse_host r s : host (thenSendToolResponse r s) = host s.
Proof. unfold thenSendToolResponse. destruct (pc s); reflexivity. Qed.

(** A call that is not answered changes nothing; a call that is answered
    hands its response to [sessionPromise.then]. *)
Lemma dispatch_sends fc s :
  (answered fc = false -> dispatch fc s = s) /\
  (answered fc = true ->
   match pc s with
   | SessionReady =>
       toolResponses (log (dispatch fc s)) = toolResponses (log s) ++ [answer fc] /\
       waiting (dispatch fc s) = waiting s
   | AwaitingSession =>
       toolResponses (log (dispatch fc s)) = toolResponses (log s) /\
       waiting (dispatch fc s) = waiting s ++ [answer fc]
   | _ =>
       toolResponses (log (dispatch fc s)) = toolResponses (log s) /\
       waiting (dispatch fc s) = waiting s
   end).
Proof.
  unfold answered, dispatch.
  destruct (fc_args fc) as [args|] eqn:Ha.
  - destruct (String.eqb (fc_name fc) "controlRide") eqn:Hn.
    + split; [discriminate|]. intros _.
      match goal with
      | |- context [thenSendToolResponse ?r ?x] =>
          pose proof (thenSendToolResponse_cases r x) as H
      end.
      cbn [pc withHost log waiting] in H. exact H.
    + split; [reflexivity|discriminate].
  - split; [reflexivity|]. rewrite andb_false_r. discriminate.
Qed.

(** The tool results sent for a list of function calls once
    [sessionPromise] is fulfilled: one for each call that is answered,
    in order. *)
Lemma fold_dispatch_responses fcs s :
  pc s = SessionReady ->
  toolResponses (log (fold_left (fun s fc => dispatch fc s) fcs s)) =
  toolResponses (log s) ++ map answer (filter (fun fc => answered fc = true) fcs).
Proof.
  revert s. induction fcs as [|fc fcs IH]; intros s Hp; simpl.
  - rewrite app_nil_r. reflexivity.
  - destruct (dispatch_frame fc s) as (_ & _ & Epc & _).
    rewrite IH by congruence.
    destruct (dispatch_sends fc s) as (Hno & Hyes).
    destruct (answered fc) eqn:Ha.
    + rewrite filter_cons_True by exact Ha.
      specialize (Hyes eq_refl). rewrite Hp in Hyes. destruct Hyes as (-> & _).
      simpl. rewrite <- app_assoc. reflexivity.
    + rewrite filter_cons_False by (rewrite Ha; discriminate).
      rewrite Hno by reflexivity. reflexivity.
Qed.

Lemma fold_dispatch_ready fcs s :
  pc s = SessionReady ->
  waiting (fold_left (fun s fc => dispatch fc s) fcs s) = waiting s.
Proof.
  revert s. induction fcs as [|fc fcs IH]; intros s Hp; simpl; [reflexivity|].
  destruct (dispatch_frame fc s) as (_ & _ & Epc & _).
  rewrite IH by congruence.
  destruct (dispatch_sends fc s) as (Hno & Hyes).
  destruct (answered fc) eqn:Ha.
  - specialize (Hyes eq_refl). rewrite Hp in Hyes. apply Hyes.
  - rewrite Hno by reflexivity. reflexivity.
Qed.

(** The same calls while [sessionPromise] is pending: nothing is sent, and
    the responses wait in order. *)
Lemma fold_dispatch_waiting fcs s :
  pc s = AwaitingSession ->
  toolResponses (log (fold_left (fun s fc => dispatch fc s) fcs s)) =
    toolResponses (log s) /\
  waiting (fold_left (fun s fc => dispatch fc s) fcs s) =
    waiting s ++ map answer (filter (fun fc => answered fc = true) fcs).
Proof.
  revert s. induction fcs as [|fc fcs IH]; intros s Hp; simpl.
  - rewrite app_nil_r. split; reflexivity.
  - destruct (dispatch_frame fc s) as (_ & _ & Epc & _).
    destruct (IH (dispatch fc s)) as (-> & ->); [congruence|].
    destruct (dispatch_sends fc s) as (Hno & Hyes).
    destruct (answered fc) eqn:Ha.
    + rewrite filter_cons_True by exact Ha.
      specialize (Hyes eq_refl). rewrite Hp in Hyes. destruct Hyes as (-> & ->).
      simpl. rewrite <- app_assoc. split; reflexivity.
    + rewrite filter_cons_False by (rewrite Ha; discriminate).
      rewrite Hno by reflexivity. split; reflexivity.
Qed.

(** The same calls after [sessionPromise] has been rejected: nothing is
    sent and nothing waits. *)
Lemma fold_dispatch_dropped fcs s :
  pc s = SessionFailed ->
  toolResponses (log (fold_left (fun s fc => dispatch fc s) fcs s)) =
    toolResponses (log s) /\
  waiting (fold_left (fun s fc => dispatch fc s) fcs s) = waiting s.
Proof.
  revert s. induction fcs as [|fc fcs IH]; intros s Hp; simpl.
  - split; reflexivity.
  - destruct (dispatch_frame fc s) as (_ & _ & Epc & _).
    destruct (IH (dispatch fc s)) as (-> & ->); [congruence|].
    destruct (dispatch_sends fc s) as (Hno & Hyes).
    destruct (answered fc) eqn:Ha.
    + specialize (Hyes eq_refl). rewrite Hp in Hyes. exact Hyes.
    + rewrite Hno by reflexivity. split; reflexivity.
Qed.
End HandlerFacts.

(** ** Playback scheduling *)

Section SchedulerFacts.
Import Voice Spec.
Variable decodeAudioData : string -> option AudioBuffer.

Lemma bufferDuration_nonneg b : (0 <= bufferDuration b)%Q.
Proof. unfold bufferDuration, Qle. simpl. lia. Qed.

(** The postcondition of the audio block for a frame that decodes. *)
Lemma onmessage_schedules now m s b c :
  audioFrame decodeAudioData m b ->
  outputAudioContextRef (refs s) = Some c ->
  interrupted_ m = false ->
  let s' := fst (onmessage decodeAudioData now m s) in
  let at_ := Qmax (nextStartTimeRef (refs s)) now in
  snd (onmessage decodeAudioData now m s) = Returned /\
  started (log s') =
    started (log s) ++ [mkPlayback (created (log s)) at_ (bufferDuration b)] /\
  created (log s') = S (created (log s)) /\
  nextStartTimeRef (refs s') = (at_ + bufferDuration b)%Q /\
  sourcesRef (refs s') = {[ created (log s) ]} ∪ sourcesRef (refs s) /\
  outputAudioContextRef (refs s') = Some c.
Proof.
  intros (base64 & Hm & Hne & Hd) Hc Hi. cbv zeta.
  unfold onmessage. rewrite Hm.
  destruct (onTranscription_frame m s) as (Er & _ & El & _).
  destruct base64 as [|a rest]; [congruence|].
  rewrite Er, Hc, Hd. cbn [fst snd].
  split; [reflexivity|].
  match goal with
  | |- context [afterAudio m ?x] =>
      destruct (afterAudio_scheduler m x Hi) as (-> & -> & -> & _)
  end.
  cbn. rewrite Er, El, Hc. repeat split.
Qed.

Lemma Qmax_after (cursor d now : Q) :
  (0 <= d)%Q ->
  let at_ := Qmax (cursor + d) now in
  (cursor <= at_)%Q /\ (cursor + d <= at_)%Q /\
  ((now <= cursor + d)%Q -> (at_ == cursor + d)%Q) /\
  ((cursor + d <= now)%Q -> (at_ == now)%Q).
Proof.
  intros Hd at_. subst at_.
  pose proof (Q.le_max_l (cursor + d) now) as Hl.
  repeat split.
  - lra.
  - exact Hl.
  - intros H. apply Q.max_l. exact H.
  - intros H. apply Q.max_r. exact H.
Qed.

(** C2, as the code has it.  Three audio frames handled in a row, none of
    the messages signalling an interruption: each buffer is started at
    [max(cursor, currentTime)] and the cursor moves to that time plus the
    duration of the buffer; the start times do not decrease and the
    playback intervals do not overlap; a buffer whose frame is handled no
    later than the end of the buffer before it starts exactly at that
    end, and one whose frame is handled later starts at the device time
    of its handling. *)
Theorem C2_schedule_in_order_without_overlap
    (s0 : Session) (c : ContextState) (t1 t2 t3 : Q)
    (m1 m2 m3 : LiveServerMessage) (b1 b2 b3 : AudioBuffer) :
  outputAudioContextRef (refs s0) = Some c ->
  audioFrame decodeAudioData m1 b1 -> interrupted_ m1 = false ->
  audioFrame decodeAudioData m2 b2 -> interrupted_ m2 = false ->
  audioFrame decodeAudioData m3 b3 -> interrupted_ m3 = false ->
  let s1 := fst (onmessage decodeAudioData t1 m1 s0) in
  let s2 := fst (onmessage decodeAudioData t2 m2 s1) in
  let s3 := fst (onmessage decodeAudioData t3 m3 s2) in
  exists p1 p2 p3,
    started (log s3) = started (log s0) ++ [p1; p2; p3] /\
    (startAt p1 = Qmax (nextStartTimeRef (refs s0)) t1 /\
     duration p1 = bufferDuration b1 /\
     nextStartTimeRef (refs s1) = (startAt p1 + duration p1)%Q) /\
    (startAt p2 = Qmax (nextStartTimeRef (refs s1)) t2 /\
     duration p2 = bufferDuration b2 /\
     nextStartTimeRef (refs s2) = (startAt p2 + duration p2)%Q) /\
    (startAt p3 = Qmax (nextStartTimeRef (refs s2)) t3 /\
     duration p3 = bufferDuration b3 /\
     nextStartTimeRef (refs s3) = (startAt p3 + duration p3)%Q) /\
    (startAt p1 <= startAt p2 /\ startAt p2 <= startAt p3)%Q /\
    (startAt p1 + duration p1 <= startAt p2 /\
     startAt p2 + duration p2 <= startAt p3)%Q /\
    ((t2 <= startAt p1 + duration p1 -> startAt p2 == startAt p1 + duration p1) /\
     (t3 <= startAt p2 + duration p2 -> startAt p3 == startAt p2 + duration p2))%Q /\
    ((startAt p1 + duration p1 <= t2 -> startAt p2 == t2) /\
     (startAt p2 + duration p2 <= t3 -> startAt p3 == t3))%Q.
Proof.
  intros Hc F1 I1 F2 I2 F3 I3 s1 s2 s3.
  destruct (onmessage_schedules t1 m1 s0 b1 c F1 Hc I1)
    as (_ & L1 & _ & N1 & _ & C1).
  fold s1 in L1, N1, C1.
  destruct (onmessage_schedules t2 m2 s1 b2 c F2 C1 I2)
    as (_ & L2 & _ & N2 & _ & C2).
  fold s2 in L2, N2, C2.
  destruct (onmessage_schedules t3 m3 s2 b3 c F3 C2 I3)
    as (_ & L3 & _ & N3 & _ & _).
  fold s3 in L3, N3.
  eexists _, _, _. split.
  { rewrite L3, L2, L1. rewrite <- !app_assoc. reflexivity. }
  cbn [startAt duration].
  split; [repeat split; exact N1|].
  split; [repeat split; exact N2|].
  split; [repeat split; exact N3|].
  rewrite N2, N1.
  set (a1 := Qmax (nextStartTimeRef (refs s0)) t1).
  destruct (Qmax_after a1 (bufferDuration b1) t2 (bufferDuration_nonneg b1))
    as (A1 & A2 & A3 & A4).
  set (a2 := Qmax (a1 + bufferDuration b1) t2) in *.
  destruct (Qmax_after a2 (bufferDuration b2) t3 (bufferDuration_nonneg b2))
    as (B1 & B2 & B3 & B4).
  repeat split; assumption.
Qed.
End SchedulerFacts.

(** C2 at three one-second frames handled at device times 0, 1/2 and 3/2
    by a listening session: they play at 0, 1 and 2. *)
Lemma C2_witness :
  let s1 := fst (Voice.onmessage demoDecode 0 (audioMessage "A") demoListening) in
  let s2 := fst (Voice.onmessage demoDecode (1 # 2) (audioMessage "B") s1) in
  let s3 := fst (Voice.onmessage demoDecode (3 # 2) (audioMessage "C") s2) in
  exists p1 p2 p3,
    Voice.started (Voice.log s3) = [p1; p2; p3] /\
    (Voice.startAt p1 == 0 /\ Voice.startAt p2 == 1 /\ Voice.startAt p3 == 2)%Q.
Proof.
  intros s1 s2 s3.
  destruct (C2_schedule_in_order_without_overlap demoDecode
              demoListening Voice.running 0 (1 # 2) (3 # 2)
              (audioMessage "A") (audioMessage "B") (audioMessage "C")
              (Voice.mkAudioBuffer 24000 24000) (Voice.mkAudioBuffer 24000 24000)
              (Voice.mkAudioBuffer 24000 24000))
    as (p1 & p2 & p3 & L & (S1 & D1 & _) & (_ & D2 & _) & _ & _ & _ & (G2 & G3) & _).
  - reflexivity.
  - exists "A"%string. repeat split. discriminate.
  - reflexivity.
  - exists "B"%string. repeat split. discriminate.
  - reflexivity.
  - exists "C"%string. repeat split. discriminate.
  - reflexivity.
  - exists p1, p2, p3. split; [exact L|].
    assert (E1 : (Voice.startAt p1 == 0)%Q) by (rewrite S1; reflexivity).
    assert (E1' : (Voice.duration p1 == 1)%Q) by (rewrite D1; reflexivity).
    assert (E2 : (Voice.startAt p2 == 1)%Q).
    { rewrite G2; rewrite E1, E1'; [reflexivity | discriminate]. }
    assert (E2' : (Voice.duration p2 == 1)%Q) by (rewrite D2; reflexivity).
    split; [exact E1|]. split; [exact E2|].
    rewrite G3; rewrite E2, E2'; [reflexivity | discriminate].
Defined.

(** C2, as the specification words it, against the code: three one-second
    frames handled at device times 0, 5 and 10 play over [0, 1], [5, 6]
    and [10, 11], with gaps of four seconds. *)
Lemma C2_counterexample :
  let s1 := fst (Voice.onmessage demoDecode 0 (audioMessage "A") demoListening) in
  let s2 := fst (Voice.onmessage demoDecode 5 (audioMessage "B") s1) in
  let s3 := fst (Voice.onmessage demoDecode 10 (audioMessage "C") s2) in
  exists p1 p2 p3,
    Voice.started (Voice.log s3) = [p1; p2; p3] /\
    (Voice.startAt p1 == 0 /\ Voice.duration p1 == 1 /\
     Voice.startAt p2 == 5 /\ Voice.duration p2 == 1 /\
     Voice.startAt p3 == 10 /\ Voice.duration p3 == 1)%Q /\
    ~ (Voice.startAt p2 - (Voice.startAt p1 + Voice.duration p1) == 0)%Q /\
    ~ (Voice.startAt p3 - (Voice.startAt p2 + Voice.duration p2) == 0)%Q.
Proof.
  cbv zeta. eexists _, _, _. split; [vm_compute; reflexivity|].
  split; [repeat split|]. split; discriminate.
Qed.

(** ** Interruption, transcripts and decode failures *)

Section MessageFacts.
Import Voice Spec.
Variable decodeAudioData : string -> option AudioBuffer.

Lemma onTranscription_ui m s :
  userTranscription (ui (onTranscription m s)) =
    default (userTranscription (ui s)) (serverContent m ≫= inputTranscription) /\
  assistantResponse (ui (onTranscription m s)) =
    default (assistantResponse (ui s)) (serverContent m ≫= outputTranscription).
Proof.
  unfold onTranscription.
  destruct (serverContent m ≫= inputTranscription),
           (serverContent m ≫= outputTranscription); split; reflexivity.
Qed.

Lemma afterAudio_ui m s :
  userTranscription (ui (afterAudio m s)) =
    (if turnComplete_ m then ""%string else userTranscription (ui s)) /\
  assistantResponse (ui (afterAudio m s)) =
    (if interrupted_ m then ""%string else assistantResponse (ui s)) /\
  status (ui (afterAudio m s)) = status (ui s) /\
  isListening (ui (afterAudio m s)) = isListening (ui s).
Proof.
  unfold afterAudio.
  destruct (onTurnComplete_frame m (onToolCall m (onInterrupted m s)))
    as (_ & _ & _ & _ & -> & -> & ->).
  destruct (onToolCall_frame m (onInterrupted m s)) as (Eu & _).
  unfold onTurnComplete. unfold onInterrupted in *.
  destruct (turnComplete_ m), (interrupted_ m); cbn; rewrite ?Eu; repeat split.
Qed.

Lemma afterAudio_interrupted m s :
  interrupted_ m = true ->
  sourcesRef (refs (afterAudio m s)) = ∅ /\
  nextStartTimeRef (refs (afterAudio m s)) = 0%Q /\
  stopped (log (afterAudio m s)) = stopped (log s) ++ elements (sourcesRef (refs s)) /\
  started (log (afterAudio m s)) = started (log s) /\
  outputAudioContextRef (refs (afterAudio m s)) = outputAudioContextRef (refs s).
Proof.
  intros Hi. unfold afterAudio, onInterrupted. rewrite Hi.
  destruct (onTurnComplete_frame m (onToolCall m (interrupt s)))
    as (-> & _ & -> & _).
  destruct (onToolCall_frame m (interrupt s)) as (_ & -> & _ & _ & -> & ->).
  repeat split.
Qed.

(** The two ways a call of the callback ends.  When it returns, the
    statements after the audio block have run on the state [sa] that the
    audio block left; when it is rejected, only the transcriptions and
    possibly the cursor have been written. *)
Lemma onmessage_cases t m s :
  let s' := fst (onmessage decodeAudioData t m s) in
  (snd (onmessage decodeAudioData t m s) = Rejected /\
   ui s' = ui (onTranscription m s) /\
   host s' = host s /\ log s' = log s /\ pc s' = pc s /\
   sourcesRef (refs s') = sourcesRef (refs s))
  \/
  (snd (onmessage decodeAudioData t m s) = Returned /\
   exists sa,
     s' = afterAudio m sa /\
     ui sa = ui (onTranscription m s) /\
     host sa = host s /\ pc sa = pc s /\
     toolResponses (log sa) = toolResponses (log s) /\
     stopped (log sa) = stopped (log s) /\
     sourcesRef (refs s) ⊆ sourcesRef (refs sa)).
Proof.
  cbv zeta. unfold onmessage.
  destruct (onTranscription_frame m s) as (Er & Eh & El & Ep & _).
  destruct (base64Audio m) as [|base64|].
  - right. split; [reflexivity|]. eexists; split; [reflexivity|].
    rewrite Er, Eh, El, Ep. repeat split; set_solver.
  - destruct base64 as [|a rest].
    + right. split; [reflexivity|]. eexists; split; [reflexivity|].
      rewrite Er, Eh, El, Ep. repeat split; set_solver.
    + destruct (outputAudioContextRef (refs (onTranscription m s))).
      * destruct (decodeAudioData (String a rest)) as [audioBuffer|].
        -- right. split; [reflexivity|]. eexists; split; [reflexivity|].
           cbn. rewrite Er, Eh, El, Ep. repeat split; set_solver.
        -- left. cbn. rewrite Er, Eh, El, Ep. repeat split; set_solver.
      * right. split; [reflexivity|]. eexists; split; [reflexivity|].
        rewrite Er, Eh, El, Ep. repeat split; set_solver.
  - left. cbn. rewrite Er, Eh, El, Ep. repeat split; set_solver.
Qed.

(** C3, as the code has it.  When the callback handles a message that
    signals an interruption, every node of the active set is stopped,
    the set is emptied, the assistant transcript is cleared and the
    cursor is set to 0; as device time is not negative, the next frame
    that is handled starts at the device time of its handling. *)
Theorem C3_interrupt_stops_all_and_resets_cursor_to_zero
    (s : Session) (t : Q) (m : LiveServerMessage) :
  interrupted_ m = true ->
  snd (onmessage decodeAudioData t m s) = Returned ->
  let s' := fst (onmessage decodeAudioData t m s) in
  (forall n : nat, n ∈ sourcesRef (refs s) -> n ∈ stopped (log s')) /\
  sourcesRef (refs s') = ∅ /\
  nextStartTimeRef (refs s') = 0%Q /\
  assistantResponse (ui s') = ""%string /\
  forall (t' : Q) (m' : LiveServerMessage) (b' : AudioBuffer) (c : ContextState),
    (0 <= t')%Q ->
    audioFrame decodeAudioData m' b' ->
    interrupted_ m' = false ->
    outputAudioContextRef (refs s') = Some c ->
    exists p,
      started (log (fst (onmessage decodeAudioData t' m' s'))) =
        started (log s') ++ [p] /\
      (startAt p == t')%Q.
Proof.
  intros Hi Hret s'.
  destruct (onmessage_cases t m s) as [(Hrej & _) | (_ & sa & Es & _ & _ & _ & _ & _ & Hsub)].
  { rewrite Hret in Hrej. discriminate. }
  fold s' in Es.
  destruct (afterAudio_interrupted m sa Hi) as (Esrc & Ecur & Estop & _ & _).
  destruct (afterAudio_ui m sa) as (_ & Eas & _).
  rewrite Hi in Eas. rewrite <- Es in Esrc, Ecur, Estop, Eas.
  split; [|split; [exact Esrc | split; [exact Ecur | split; [exact Eas|]]]].
  - intros n Hn. rewrite Estop. apply elem_of_app. right.
    apply elem_of_elements. apply Hsub. exact Hn.
  - intros t' m' b' c Ht' Hf Hi' Hc.
    destruct (onmessage_schedules decodeAudioData t' m' s' b' c Hf Hc Hi')
      as (_ & L & _).
    eexists. split; [exact L|]. cbn [startAt].
    rewrite Ecur. apply Q.max_r. exact Ht'.
Qed.

(** C8, as the code has it.  A user transcription in a message replaces
    [userTranscription] and an assistant transcription replaces
    [assistantResponse], whatever they held; when the callback reaches
    the end of a message that completes the turn, [userTranscription] is
    empty, while [assistantResponse] is not touched by the completion of
    a turn: it is emptied by an interruption only. *)
Theorem C8_transcripts_replaced_and_user_transcript_reset
    (s : Session) (t : Q) (m : LiveServerMessage) :
  let s' := fst (onmessage decodeAudioData t m s) in
  (forall text, serverContent m ≫= inputTranscription = Some text ->
                turnComplete_ m = false ->
                userTranscription (ui s') = text) /\
  (forall text, serverContent m ≫= outputTranscription = Some text ->
                interrupted_ m = false ->
                assistantResponse (ui s') = text) /\
  (turnComplete_ m = true ->
   snd (onmessage decodeAudioData t m s) = Returned ->
   userTranscription (ui s') = ""%string) /\
  (turnComplete_ m = true ->
   interrupted_ m = false ->
   serverContent m ≫= outputTranscription = None ->
   assistantResponse (ui s') = assistantResponse (ui s)) /\
  (interrupted_ m = true ->
   snd (onmessage decodeAudioData t m s) = Returned ->
   assistantResponse (ui s') = ""%string).
Proof.
  cbv zeta.
  destruct (onTranscription_ui m s) as (Eu & Ea).
  destruct (onmessage_cases t m s)
    as [(Hrej & Eui & _) | (Hret & sa & Es & Eui & _)].
  - rewrite Eui, Eu, Ea, Hrej.
    repeat split; try discriminate.
    + intros text -> _. reflexivity.
    + intros text -> _. reflexivity.
    + intros _ _ ->. reflexivity.
  - destruct (afterAudio_ui m sa) as (Eu' & Ea' & _).
    rewrite Es, Eu', Ea', Eui, Eu, Ea.
    repeat split.
    + intros text -> ->. reflexivity.
    + intros text -> ->. reflexivity.
    + intros -> _. reflexivity.
    + intros _ -> ->. reflexivity.
    + intros -> _. reflexivity.
Qed.

(** C9, as the code has it.  When the audio frame of a message does not
    decode, the exception leaves the callback at the decode: nothing is
    started, stopped or sent, the active set, the status, the host
    state, the handles and the progress of [connectAndListen] are as
    before; the transcriptions of the message have been applied, the
    cursor has been raised to [max(cursor, currentTime)], and the rest
    of the message (interruption, tool calls, completion of the turn) is
    not handled. *)
Theorem C9_decode_failure_aborts_the_callback
    (s : Session) (t : Q) (m : LiveServerMessage) (c : ContextState) :
  malformedFrame decodeAudioData m ->
  outputAudioContextRef (refs s) = Some c ->
  let s' := fst (onmessage decodeAudioData t m s) in
  snd (onmessage decodeAudioData t m s) = Rejected /\
  s' = withRefs (setNextStartTime (Qmax (nextStartTimeRef (refs s)) t))
                (onTranscription m s) /\
  status (ui s') = status (ui s) /\
  isListening (ui s') = isListening (ui s) /\
  log s' = log s /\
  host s' = host s /\
  pc s' = pc s /\
  sourcesRef (refs s') = sourcesRef (refs s) /\
  (sessionRef (refs s'), streamRef (refs s'), processorRef (refs s'),
   inputAudioContextRef (refs s'), outputAudioContextRef (refs s')) =
  (sessionRef (refs s), streamRef (refs s), processorRef (refs s),
   inputAudioContextRef (refs s), outputAudioContextRef (refs s)) /\
  userTranscription (ui s') =
    default (userTranscription (ui s)) (serverContent m ≫= inputTranscription) /\
  assistantResponse (ui s') =
    default (assistantResponse (ui s)) (serverContent m ≫= outputTranscription).
Proof.
  intros (base64 & Hm & Hne & Hd) Hc s'. subst s'.
  unfold onmessage. rewrite Hm.
  destruct (onTranscription_frame m s) as (Er & Eh & El & Ep & Est & Eli).
  destruct (onTranscription_ui m s) as (Eu & Ea).
  destruct base64 as [|a rest]; [congruence|].
  rewrite Er, Hc, Hd. cbn.
  rewrite Er, Eh, El, Ep, Est, Eli, Eu, Ea.
  repeat split.
  - unfold withRefs. rewrite Er. reflexivity.
  - rewrite Hc. reflexivity.
Qed.
End MessageFacts.

(** C3 with one frame playing when the interruption arrives at device
    time 5: node 0 is stopped, the set is empty, the cursor is 0, and the
    frame handled at device time 7 starts at 7. *)
Lemma C3_witness :
  let s := fst (Voice.onmessage demoDecode 3 (audioMessage "A") demoListening) in
  let s' := fst (Voice.onmessage demoDecode 5 interruptedMessage s) in
  0%nat ∈ Voice.stopped (Voice.log s') /\
  Voice.sourcesRef (Voice.refs s') = ∅ /\
  Voice.nextStartTimeRef (Voice.refs s') = 0%Q /\
  exists p,
    Voice.started (Voice.log (fst (Voice.onmessage demoDecode 7 (audioMessage "B") s'))) =
      Voice.started (Voice.log s') ++ [p] /\
    (Voice.startAt p == 7)%Q.
Proof.
  intros s s'.
  destruct (C3_interrupt_stops_all_and_resets_cursor_to_zero demoDecode
              s 5 interruptedMessage) as (H1 & H2 & H3 & _ & H5).
  - reflexivity.
  - reflexivity.
  - split; [|split; [exact H2 | split; [exact H3|]]].
    + apply H1. apply (bool_decide_unpack _). vm_compute. exact I.
    + apply (H5 7%Q (audioMessage "B") (Voice.mkAudioBuffer 24000 24000) Voice.running).
      * discriminate.
      * exists "B"%string. repeat split. discriminate.
      * reflexivity.
      * reflexivity.
Defined.

(** C3, as the specification words it, against the code: after an
    interruption handled at device time 5 the cursor is 0, not 5. *)
Lemma C3_counterexample :
  let s := fst (Voice.onmessage demoDecode 3 (audioMessage "A") demoListening) in
  let s' := fst (Voice.onmessage demoDecode 5 interruptedMessage s) in
  (Voice.nextStartTimeRef (Voice.refs s) == 4)%Q /\
  Voice.nextStartTimeRef (Voice.refs s') = 0%Q /\
  ~ (Voice.nextStartTimeRef (Voice.refs s') == 5)%Q.
Proof. cbv zeta. split; [reflexivity|]. split; [reflexivity|]. discriminate. Qed.

(** C8 in the middle of a turn: a user transcription, an assistant
    transcription, the completion of the turn and an interruption. *)
Lemma C8_witness :
  Voice.userTranscription
    (Voice.ui (fst (Voice.onmessage demoDecode 2
                      (transcriptMessage (Some "Book a car to the fort"%string) None)
                      demoMidTurn))) = "Book a car to the fort"%string /\
  Voice.assistantResponse
    (Voice.ui (fst (Voice.onmessage demoDecode 2
                      (transcriptMessage None (Some "Where to?"%string))
                      demoMidTurn))) = "Where to?"%string /\
  Voice.userTranscription
    (Voice.ui (fst (Voice.onmessage demoDecode 2 turnCompleteMessage demoMidTurn))) =
    ""%string /\
  Voice.assistantResponse
    (Voice.ui (fst (Voice.onmessage demoDecode 2 turnCompleteMessage demoMidTurn))) =
    Voice.assistantResponse (Voice.ui demoMidTurn) /\
  Voice.assistantResponse
    (Voice.ui (fst (Voice.onmessage demoDecode 2 interruptedMessage demoMidTurn))) =
    ""%string.
Proof.
  split; [|split; [|split; [|split]]].
  - apply (C8_transcripts_replaced_and_user_transcript_reset demoDecode demoMidTurn 2
             (transcriptMessage (Some "Book a car to the fort"%string) None));
      reflexivity.
  - apply (C8_transcripts_replaced_and_user_transcript_reset demoDecode demoMidTurn 2
             (transcriptMessage None (Some "Where to?"%string)));
      reflexivity.
  - apply (C8_transcripts_replaced_and_user_transcript_reset demoDecode demoMidTurn 2
             turnCompleteMessage); reflexivity.
  - apply (C8_transcripts_replaced_and_user_transcript_reset demoDecode demoMidTurn 2
             turnCompleteMessage); reflexivity.
  - apply (C8_transcripts_replaced_and_user_transcript_reset demoDecode demoMidTurn 2
             interruptedMessage); reflexivity.
Defined.

(** C8, as the specification words it, against the code: the assistant
    transcript survives the completion of the turn. *)
Lemma C8_counterexample :
  let s' := fst (Voice.onmessage demoDecode 2 turnCompleteMessage demoMidTurn) in
  Voice.assistantResponse (Voice.ui demoMidTurn) = "Sure."%string /\
  Voice.userTranscription (Voice.ui s') = ""%string /\
  Voice.assistantResponse (Voice.ui s') = "Sure."%string /\
  Voice.assistantResponse (Voice.ui s') <> ""%string.
Proof. cbv zeta. repeat split. discriminate. Qed.

(** C9 at a frame that does not decode, in the middle of a turn. *)
Lemma C9_witness :
  let s' := fst (Voice.onmessage demoDecode 2 (audioMessage "!corrupt") demoMidTurn) in
  snd (Voice.onmessage demoDecode 2 (audioMessage "!corrupt") demoMidTurn) =
    Voice.Rejected /\
  Voice.status (Voice.ui s') = Voice.ListeningStatus /\
  Voice.log s' = Voice.log demoMidTurn /\
  Voice.host s' = demoHost.
Proof.
  intros s'.
  destruct (C9_decode_failure_aborts_the_callback demoDecode demoMidTurn 2
              (audioMessage "!corrupt") Voice.running)
    as (H1 & _ & H3 & _ & H5 & H6 & _).
  - exists "!corrupt"%string. repeat split. discriminate.
  - reflexivity.
  - split; [exact H1|]. split; [exact H3|]. split; [exact H5|]. exact H6.
Defined.

(** C9, as the specification words it, against the code: with a frame that
    does not decode the callback is rejected, and the completion of the
    turn and the function call of the same message are lost with the
    frame; with a frame that decodes they are handled. *)
Lemma C9_counterexample :
  let bad := Voice.onmessage demoDecode 2 (busyMessage "!corrupt") demoMidTurn in
  let good := Voice.onmessage demoDecode 2 (busyMessage "A") demoMidTurn in
  snd bad = Voice.Rejected /\
  Voice.userTranscription (Voice.ui (fst bad)) = "Book a car"%string /\
  Voice.vehicle (Voice.host (fst bad)) = Voice.CAR /\
  Voice.toolResponses (Voice.log (fst bad)) = [] /\
  snd good = Voice.Returned /\
  Voice.userTranscription (Voice.ui (fst good)) = ""%string /\
  Voice.vehicle (Voice.host (fst good)) = Voice.BIKE /\
  Voice.toolResponses (Voice.log (fst good)) =
    [Voice.mkFunctionResponse "call-1" "controlRide" Voice.okResult].
Proof. cbv zeta. repeat split; vm_compute; reflexivity. Qed.

(** ** Tool calls *)

Section DispatchFacts.
Import Voice Spec.
Variable decodeAudioData : string -> option AudioBuffer.

Lemma vehicleOf_None (v : string) :
  v <> "BIKE"%string -> v <> "AUTO"%string -> v <> "CAR"%string ->
  vehicleOf v = None.
Proof.
  intros Hb Ha Hc. unfold vehicleOf.
  destruct (String.eqb_spec v "BIKE"); [contradiction|].
  destruct (String.eqb_spec v "AUTO"); [contradiction|].
  destruct (String.eqb_spec v "CAR"); [contradiction|].
  reflexivity.
Qed.

(** C5, as the code has it.  A function call whose name is not
    [controlRide], or that has no arguments, changes nothing and is not
    answered.  A [controlRide] call with arguments is answered by exactly
    one response, which carries the id and the name of the call and the
    fixed result text, and which is handed to [sessionPromise.then]: it
    is sent at once when [ai.live.connect] has resolved; while
    [ai.live.connect] is pending it waits, is sent when the promise
    resolves and is never sent when the promise is rejected; after a
    rejection it is not sent.  A message that consists of function calls
    is handled to its end, and the responses are those of its
    [controlRide] calls with arguments, in order. *)
Theorem C5_dispatch_answers_controlRide_only (fc : FunctionCall) (s : Session) :
  (fc_name fc <> "controlRide"%string -> dispatch fc s = s) /\
  (fc_args fc = None -> dispatch fc s = s) /\
  (forall args,
     fc_name fc = "controlRide"%string -> fc_args fc = Some args ->
     let r := mkFunctionResponse (fc_id fc) (fc_name fc)
                "ok, details have been updated on the user's screen." in
     let s' := dispatch fc s in
     (pc s = SessionReady ->
      toolResponses (log s') = toolResponses (log s) ++ [r] /\
      waiting s' = waiting s) /\
     (pc s = AwaitingSession ->
      toolResponses (log s') = toolResponses (log s) /\
      waiting s' = waiting s ++ [r] /\
      toolResponses (log (sessionResolved s')) =
        toolResponses (log s) ++ waiting s ++ [r] /\
      waiting (sessionResolved s') = [] /\
      forall name,
        toolResponses (log (sessionRejected name s')) = toolResponses (log s) /\
        waiting (sessionRejected name s') = []) /\
     (pc s = SessionFailed ->
      toolResponses (log s') = toolResponses (log s) /\
      waiting s' = waiting s)) /\
  (forall (t : Q) (fcs : list FunctionCall),
     let m := mkMessage None (Some fcs) in
     let s' := fst (onmessage decodeAudioData t m s) in
     let rs := map answer (filter (fun fc => answered fc = true) fcs) in
     snd (onmessage decodeAudioData t m s) = Returned /\
     (pc s = SessionReady ->
      toolResponses (log s') = toolResponses (log s) ++ rs /\
      waiting s' = waiting s) /\
     (pc s = AwaitingSession ->
      toolResponses (log s') = toolResponses (log s) /\
      waiting s' = waiting s ++ rs) /\
     (pc s = SessionFailed ->
      toolResponses (log s') = toolResponses (log s) /\
      waiting s' = waiting s)).
Proof.
  split; [|split; [|split]].
  - intros Hn. unfold dispatch.
    destruct (fc_args fc); [|reflexivity].
    destruct (String.eqb_spec (fc_name fc) "controlRide"); [contradiction|reflexivity].
  - intros Ha. unfold dispatch. rewrite Ha. reflexivity.
  - intros args Hn Ha. cbv zeta.
    assert (Hans : answered fc = true).
    { unfold answered. rewrite Hn, Ha. reflexivity. }
    destruct (dispatch_sends fc s) as (_ & Hyes). specialize (Hyes Hans).
    change (mkFunctionResponse (fc_id fc) (fc_name fc)
              "ok, details have been updated on the user's screen.")
      with (answer fc).
    split; [|split]; intros Hp; rewrite Hp in Hyes.
    + exact Hyes.
    + destruct Hyes as (Et & Ew).
      split; [exact Et|]. split; [exact Ew|].
      split; [|split; [reflexivity|]].
      * cbn. rewrite Et, Ew. reflexivity.
      * intros name. split; [exact Et | reflexivity].
    + exact Hyes.
  - intros t fcs. cbv zeta. split; [reflexivity|].
    split; [|split]; intros Hp; cbn.
    + split; [apply fold_dispatch_responses; exact Hp|].
      apply (fold_dispatch_ready fcs s Hp).
    + apply (fold_dispatch_waiting fcs s Hp).
    + apply (fold_dispatch_dropped fcs s Hp).
Qed.

(** C6, as the code has it.  A [controlRide] call whose [vehicle] is none
    of [BIKE], [AUTO], [CAR] (compared as strings, so case matters)
    leaves the selected vehicle as it is, sets the pickup and the
    destination to the values given when these are not empty strings and
    leaves them alone otherwise, shows the booking view, and is answered
    with the success result, which is sent at once when [ai.live.connect]
    has resolved, waits for it while it is pending, and is not sent after
    it has been rejected. *)
Theorem C6_invalid_vehicle_is_ignored
    (fc : FunctionCall) (args : gmap string string) (v : string) (s : Session) :
  fc_name fc = "controlRide"%string ->
  fc_args fc = Some args ->
  args !! "vehicle"%string = Some v ->
  v <> "BIKE"%string -> v <> "AUTO"%string -> v <> "CAR"%string ->
  let s' := dispatch fc s in
  let r := mkFunctionResponse (fc_id fc) "controlRide"
             "ok, details have been updated on the user's screen." in
  vehicle (host s') = vehicle (host s) /\
  pickup (host s') =
    match args !! "pickup"%string with
    | Some (String a r) => String a r
    | _ => pickup (host s)
    end /\
  destination (host s') =
    match args !! "destination"%string with
    | Some (String a r) => String a r
    | _ => destination (host s)
    end /\
  currentView (host s') = BOOKING /\
  (pc s = SessionReady ->
   toolResponses (log s') = toolResponses (log s) ++ [r] /\
   waiting s' = waiting s) /\
  (pc s = AwaitingSession ->
   toolResponses (log s') = toolResponses (log s) /\
   waiting s' = waiting s ++ [r]) /\
  (pc s = SessionFailed ->
   toolResponses (log s') = toolResponses (log s) /\
   waiting s' = waiting s).
Proof.
  intros Hn Ha Hv Hb Hau Hc. cbv zeta.
  assert (Hans : answered fc = true).
  { unfold answered. rewrite Hn, Ha. reflexivity. }
  destruct (dispatch_sends fc s) as (_ & Hyes). specialize (Hyes Hans).
  unfold answer in Hyes. rewrite Hn in Hyes.
  split; [|split; [|split; [|split]]].
  5:{ split; [|split]; intros Hp; rewrite Hp in Hyes; exact Hyes. }
  all: clear Hyes.
  all: unfold dispatch; rewrite Ha, Hn, Hv; cbn [String.eqb Ascii.eqb Bool.eqb].
  all: cbn [mbind option_bind]; rewrite (vehicleOf_None v Hb Hau Hc).
  all: unfold thenSendToolResponse; cbn [pc withHost].
  all: destruct (args !! "pickup"%string) as [[|a1 r1]|],
           (args !! "destination"%string) as [[|a2 r2]|],
           v as [|a3 r3], (pc s); reflexivity.
Qed.
End DispatchFacts.

(** C5 at a call of an unknown function and a [controlRide] call, in a
    session that listens, in one that is still connecting and in one whose
    connection was refused. *)
Lemma C5_witness :
  Voice.dispatch weatherCall demoListening = demoListening /\
  Voice.toolResponses (Voice.log (Voice.dispatch (truckCall "Market") demoListening)) =
    [Voice.mkFunctionResponse "call-8" "controlRide"
       "ok, details have been updated on the user's screen."] /\
  Voice.toolResponses
    (Voice.log (fst (Voice.onmessage demoDecode 2
                       (Voice.mkMessage None (Some [weatherCall; truckCall "Market"]))
                       demoListening))) =
    [Voice.mkFunctionResponse "call-8" "controlRide"
       "ok, details have been updated on the user's screen."] /\
  Voice.toolResponses (Voice.log (Voice.dispatch (truckCall "Market") demoConnecting)) =
    [] /\
  Voice.toolResponses
    (Voice.log (Voice.sessionResolved
                  (Voice.dispatch (truckCall "Market") demoConnecting))) =
    [Voice.mkFunctionResponse "call-8" "controlRide"
       "ok, details have been updated on the user's screen."] /\
  Voice.toolResponses (Voice.log (Voice.dispatch (truckCall "Market") demoRefused)) =
    [].
Proof.
  destruct (C5_dispatch_answers_controlRide_only demoDecode weatherCall demoListening)
    as (Unknown & _ & _ & Whole).
  destruct (C5_dispatch_answers_controlRide_only demoDecode (truckCall "Market")
              demoListening) as (_ & _ & Known & _).
  destruct (C5_dispatch_answers_controlRide_only demoDecode (truckCall "Market")
              demoConnecting) as (_ & _ & Pending & _).
  destruct (C5_dispatch_answers_controlRide_only demoDecode (truckCall "Market")
              demoRefused) as (_ & _ & Refused & _).
  split; [|split; [|split; [|split; [|split]]]].
  - apply Unknown. discriminate.
  - destruct (Known (truckArgs "Market") eq_refl eq_refl) as (Ready & _).
    apply (Ready eq_refl).
  - destruct (Whole 2%Q [weatherCall; truckCall "Market"]) as (_ & Ready & _).
    apply (Ready eq_refl).
  - destruct (Pending (truckArgs "Market") eq_refl eq_refl) as (_ & Wait & _).
    apply (Wait eq_refl).
  - destruct (Pending (truckArgs "Market") eq_refl eq_refl) as (_ & Wait & _).
    apply (Wait eq_refl).
  - destruct (Refused (truckArgs "Market") eq_refl eq_refl) as (_ & _ & Never).
    apply (Never eq_refl).
Defined.

(** C5, as the specification words it, against the code: a call of an
    unknown function is not answered at all, where one result with the
    payload [{error: "unsupported"}] is asked for. *)
Lemma C5_counterexample :
  let s' := fst (Voice.onmessage demoDecode 2 (toolCallMessage [weatherCall])
                   demoListening) in
  Voice.fc_name weatherCall <> "controlRide"%string /\
  Voice.toolResponses (Voice.log s') = [] /\
  ~ (exists r, Voice.toolResponses (Voice.log s') = [r]).
Proof.
  cbv zeta. split; [discriminate|]. split; [reflexivity|].
  intros (r & H). vm_compute in H. discriminate.
Qed.

(** C6 at a [controlRide] call for a truck from the market to the temple. *)
Lemma C6_witness :
  let s' := Voice.dispatch (truckCall "Market") demoListening in
  Voice.vehicle (Voice.host s') = Voice.CAR /\
  Voice.pickup (Voice.host s') = "Market"%string /\
  Voice.destination (Voice.host s') = "Temple"%string /\
  Voice.currentView (Voice.host s') = Voice.BOOKING /\
  Voice.toolResponses (Voice.log s') =
    [Voice.mkFunctionResponse "call-8" "controlRide"
       "ok, details have been updated on the user's screen."].
Proof.
  destruct (C6_invalid_vehicle_is_ignored (truckCall "Market") (truckArgs "Market")
              "TRUCK" demoListening) as (V & P & D & W & R & _).
  - reflexivity.
  - reflexivity.
  - reflexivity.
  - discriminate.
  - discriminate.
  - discriminate.
  - cbv zeta. split; [exact V|]. split; [exact P|]. split; [exact D|].
    split; [exact W | apply (R eq_refl)].
Defined.

(** C6, as the specification words it, against the code: a pickup that is
    present as the empty string is not applied, the host keeps its pickup;
    the destination of the same call is applied and the call is answered. *)
Lemma C6_counterexample :
  let s' := Voice.dispatch (truckCall "") demoListening in
  (Voice.fc_args (truckCall "") ≫= lookup "pickup"%string) = Some ""%string /\
  Voice.pickup (Voice.host demoListening) = "Fort"%string /\
  Voice.pickup (Voice.host s') = "Fort"%string /\
  Voice.pickup (Voice.host s') <> ""%string /\
  Voice.destination (Voice.host s') = "Temple"%string /\
  Voice.vehicle (Voice.host s') = Voice.CAR /\
  length (Voice.toolResponses (Voice.log s')) = 1%nat.
Proof. cbv zeta. repeat split; try (vm_compute; reflexivity). discriminate. Qed.

(** ** Life cycle: acquiring and releasing the handles *)

Section LifeCycleFacts.
Import Voice Spec.
Variable decodeAudioData : string -> option AudioBuffer.

Lemma devices_dispatch fc s : devices (dispatch fc s) = devices s.
Proof.
  unfold dispatch. destruct (fc_args fc); [|reflexivity].
  destruct (String.eqb (fc_name fc) "controlRide"); [|reflexivity].
  unfold thenSendToolResponse. cbn [pc withHost].
  destruct (pc s) eqn:E; try reflexivity; unfold devices; cbn; rewrite E; reflexivity.
Qed.

Lemma devices_onToolCall m s : devices (onToolCall m s) = devices s.
Proof.
  unfold onToolCall. destruct (toolCall m) as [fcs|]; [|reflexivity].
  revert s. induction fcs as [|fc fcs IH]; intros s; [reflexivity|].
  simpl. rewrite IH. apply devices_dispatch.
Qed.

Lemma devices_afterAudio m s : devices (afterAudio m s) = devices s.
Proof.
  unfold afterAudio.
  transitivity (devices (onToolCall m (onInterrupted m s))).
  { unfold onTurnComplete. destruct (turnComplete_ m); reflexivity. }
  rewrite devices_onToolCall.
  unfold onInterrupted. destruct (interrupted_ m); reflexivity.
Qed.

Lemma devices_onTranscription m s : devices (onTranscription m s) = devices s.
Proof.
  unfold onTranscription.
  destruct (serverContent m ≫= inputTranscription),
           (serverContent m ≫= outputTranscription); reflexivity.
Qed.

Lemma devices_onmessage t m s :
  devices (fst (onmessage decodeAudioData t m s)) = devices s.
Proof.
  rewrite <- (devices_onTranscription m s). unfold onmessage.
  destruct (base64Audio m) as [|[|a rest]|]; cbn [fst];
    rewrite ?devices_afterAudio; try reflexivity.
  destruct (outputAudioContextRef (refs (onTranscription m s)));
    [|cbn [fst]; apply devices_afterAudio].
  destruct (decodeAudioData (String a rest)); cbn [fst];
    rewrite ?devices_afterAudio; reflexivity.
Qed.

(** [accounted] looks at the devices only. *)
Lemma accounted_devices s s' : devices s' = devices s -> accounted s -> accounted s'.
Proof.
  unfold devices, accounted, acquired, connectCalled, captureOpen, outputOpen.
  intros E. injection E as E1 E2 E3 E4 E5 E6 E7 E8 E9 E10 E11.
  rewrite E2, E4, E5, E6, E7, E8, E11. tauto.
Qed.

Lemma accounted_mounted h : accounted (mounted h).
Proof. repeat split. Qed.

Lemma accounted_step s e :
  enabled s e = true -> accounted s -> accounted (step decodeAudioData s e).
Proof.
  intros He Ha.
  destruct e; cbn [step];
    try (eapply accounted_devices; [|exact Ha]; reflexivity).
  - (* Start *) revert He Ha. unfold enabled, accounted, acquired, connectCalled,
      captureOpen, outputOpen. cbn. destruct (pc s); try discriminate. tauto.
  - (* MediaGranted *) revert He Ha. unfold enabled, accounted, acquired,
      connectCalled, captureOpen, outputOpen. cbn.
    destruct (pc s); try discriminate. cbn. intros _ (H1 & H2 & H3 & _).
    repeat split; lia.
  - (* MediaRejected *) revert He Ha. unfold enabled, accounted, acquired,
      connectCalled, captureOpen, outputOpen. cbn.
    destruct (pc s); try discriminate. tauto.
  - (* SessionResolved *) revert He Ha. unfold enabled, accounted, acquired,
      connectCalled, captureOpen, outputOpen. cbn.
    destruct (pc s); try discriminate. tauto.
  - (* SessionRejected *) revert He Ha. unfold enabled, accounted, acquired,
      connectCalled, captureOpen, outputOpen. cbn.
    destruct (pc s); try discriminate. tauto.
  - (* Message *) eapply accounted_devices; [|exact Ha]. apply devices_onmessage.
  - (* Stop *) revert Ha. unfold accounted, acquired, connectCalled, captureOpen,
      outputOpen. cbn.
    destruct (streamRef (refs s)),
             (inputAudioContextRef (refs s)) as [[|]|],
             (outputAudioContextRef (refs s)) as [[|]|];
      cbn; intros (H1 & H2 & H3 & H4); try discriminate; repeat split; lia.
Qed.

Lemma accounted_run es s : accounted s -> accounted (run decodeAudioData es s).
Proof.
  revert s. induction es as [|e es IH]; intros s Ha; [exact Ha|].
  cbn. apply IH. destruct (enabled s e) eqn:He; [|exact Ha].
  apply accounted_step; assumption.
Qed.

Lemma closeContext_not_running c : isRunning (closeContext c) = false.
Proof. destruct c as [[|]|]; reflexivity. Qed.

Lemma released_stopListening s : released (stopListening s).
Proof.
  unfold released. cbn. rewrite !closeContext_not_running. repeat split.
Qed.

(** With nothing to release, [stopListening] only calls [onClose]. *)
Lemma stopListening_released s :
  released s ->
  stopListening s =
  withLog countOnClose (withHost onClose (withUi (setIsListening false) s)).
Proof.
  intros (H1 & H2 & H3 & H4 & H5 & H6).
  destruct s as [u r h l p]. destruct r as [se ic oc st pr so ne].
  destruct l as [cr sa sp tr ts ics ocs di sc on].
  cbn in *. subst se st pr so.
  unfold stopListening, withLog, withHost, withUi, countOnClose. cbn.
  rewrite elements_empty, app_nil_r, H4, H5. cbn. rewrite !Nat.add_0_r.
  destruct ic as [[|]|]; try discriminate;
    destruct oc as [[|]|]; try discriminate; reflexivity.
Qed.

Lemma stopListening_counts s :
  trackStops (log (stopListening s)) =
    (trackStops (log s) + count (streamRef (refs s)))%nat /\
  inputCloses (log (stopListening s)) =
    (inputCloses (log s) + count (isRunning (inputAudioContextRef (refs s))))%nat /\
  outputCloses (log (stopListening s)) =
    (outputCloses (log s) + count (isRunning (outputAudioContextRef (refs s))))%nat.
Proof. repeat split. Qed.

(** Further calls of [stopListening] after the first. *)
Lemma stopListening_again n s :
  released s ->
  let s' := Nat.iter n stopListening s in
  released s' /\
  trackStops (log s') = trackStops (log s) /\
  inputCloses (log s') = inputCloses (log s) /\
  outputCloses (log s') = outputCloses (log s) /\
  onCloseCalls (log s') = (onCloseCalls (log s) + n)%nat.
Proof.
  intros Hr. cbv zeta. induction n as [|n IH].
  - cbn [Nat.iter nat_rect]. repeat split; try apply Hr. lia.
  - destruct IH as (Hr' & Ht & Hi & Ho & Hc).
    change (Nat.iter (S n) stopListening s)
      with (stopListening (Nat.iter n stopListening s)).
    rewrite (stopListening_released _ Hr').
    split; [exact Hr'|]. cbn. rewrite Ht, Hi, Ho, Hc. repeat split. lia.
Qed.





(** C10, as the code has it.  From every state a mounted component can
    reach, one or more calls of [stopListening] in a row leave all
    handles released, and each device has then been closed once in all if
    [connectAndListen] had acquired it, and never if it had not; a
    further call releases nothing and changes nothing but for calling
    [onClose] once more. *)
Theorem C10_stop_closes_each_acquired_device_once
    (h : Host) (es : list Event) (n : nat) :
  let s := run decodeAudioData es (mounted h) in
  let s' := Nat.iter (S n) stopListening s in
  (acquired s <= 1)%nat /\
  trackStops (log s') = acquired s /\
  inputCloses (log s') = acquired s /\
  outputCloses (log s') = acquired s /\
  allReleased s' = true /\
  onCloseCalls (log s') = (onCloseCalls (log s) + S n)%nat /\
  devices (stopListening s') = devices s' /\
  stopListening s' =
    withLog countOnClose (withHost onClose (withUi (setIsListening false) s')).
Proof.
  intros s s'.
  destruct (accounted_run es (mounted h) (accounted_mounted h))
    as (Ht & Hi & Ho & _). fold s in Ht, Hi, Ho.
  destruct (stopListening_counts s) as (Ct & Ci & Co).
  assert (E : s' = Nat.iter n stopListening (stopListening s)).
  { subst s'. clear. induction n as [|n IH]; [reflexivity|].
    change (Nat.iter (S (S n)) stopListening s)
      with (stopListening (Nat.iter (S n) stopListening s)).
    rewrite IH. reflexivity. }
  destruct (stopListening_again n (stopListening s) (released_stopListening s))
    as (Hr & Dt & Di & Do & Hc).
  rewrite <- E in Hr, Dt, Di, Do, Hc.
  split; [unfold acquired; destruct (connectCalled s); cbn; lia|].
  split; [rewrite Dt, Ct; exact Ht|].
  split; [rewrite Di, Ci; exact Hi|].
  split; [rewrite Do, Co; exact Ho|].
  split.
  { destruct Hr as (R1 & R2 & _ & _ & R5 & _).
    unfold allReleased, captureOpen, outputOpen, networkOpen.
    rewrite R1, R2, R5. reflexivity. }
  split; [rewrite Hc; cbn; lia|].
  rewrite (stopListening_released s' Hr). split; reflexivity.
Qed.
End LifeCycleFacts.



(** C10, as the specification words it, against the code: when the
    component is stopped twice while [getUserMedia] is pending, no device
    is closed, the second call still calls [onClose], and the devices
    acquired afterwards stay open. *)
Lemma C10_counterexample :
  let s := Voice.run demoDecode [Voice.Start] (Voice.mounted demoHost) in
  let s1 := Voice.stopListening s in
  let s2 := Voice.stopListening s1 in
  let s3 := Voice.run demoDecode [Voice.MediaGranted; Voice.SessionResolved] s2 in
  Voice.trackStops (Voice.log s2) = 0%nat /\
  Voice.outputCloses (Voice.log s2) = 0%nat /\
  Voice.onCloseCalls (Voice.log s1) = 1%nat /\
  Voice.onCloseCalls (Voice.log s2) = 2%nat /\
  s2 <> s1 /\
  Spec.captureOpen s3 = true /\
  Spec.outputOpen s3 = true /\
  Spec.networkOpen s3 = true /\
  Voice.trackStops (Voice.log s3) = 0%nat.
Proof.
  cbv zeta. repeat split; try reflexivity.
  intros H. apply (f_equal (fun s => Voice.onCloseCalls (Voice.log s))) in H.
  vm_compute in H. discriminate.
Qed.

(* ===================================================================== *)
(** * Part III: further properties                                        *)
(* ===================================================================== *)

(** ** [withRetry]: every way it ends *)

Section RetryMore.
Import Retry Extra.
Context {T : Type}.
Variable apiCall : nat -> Outcome T.
Variable random : nat -> Q.

Lemma seq_snoc (i d : nat) : seq i (S d) = seq i d ++ [(i + d)%nat].
Proof. rewrite <- Nat.add_1_r, seq_app. reflexivity. Qed.

Lemma map_backoff_cons (i d : nat) :
  [backoff i (random i)] ++ map (fun j => backoff j (random j)) (seq (S i) d) =
  map (fun j => backoff j (random j)) (seq i (S d)).
Proof. reflexivity. Qed.

(** The loop when the attempt [i + d] is the first that is decisive. *)
Lemma loop_decisive (d : nat) :
  forall (n i : nat) (lastError : option string) (slept : list Q) (o : Outcome T),
    (d < n)%nat ->
    (forall j, (j < d)%nat -> transient (apiCall (i + j))) ->
    apiCall (i + d) = o -> decisive o ->
    loop apiCall random n i lastError slept =
    mkRun o (S (i + d))
          (slept ++ map (fun j => backoff j (random j)) (seq i d)).
Proof.
  induction d as [|d IH]; intros n i lastError slept o Hn Htr Ho Hdec.
  - destruct n as [|n]; [lia|]. rewrite Nat.add_0_r in *. cbn [loop seq map].
    rewrite Ho, app_nil_r. destruct o as [v|e]; [reflexivity|].
    cbn in Hdec. rewrite Hdec. reflexivity.
  - destruct n as [|n]; [lia|]. cbn [loop].
    destruct (Htr 0%nat ltac:(lia)) as (e & He & Hre).
    rewrite Nat.add_0_r in He. rewrite He, Hre.
    rewrite (IH n (S i) (Some e) (slept ++ [backoff i (random i)]) o).
    + rewrite <- app_assoc, map_backoff_cons.
      replace (S i + d)%nat with (i + S d)%nat by lia. reflexivity.
    + lia.
    + intros j Hj. replace (S i + j)%nat with (i + S j)%nat by lia.
      apply Htr. lia.
    + replace (S i + d)%nat with (i + S d)%nat by lia. exact Ho.
    + exact Hdec.
Qed.

(** The loop when every attempt left throws an error that is retried. *)
Lemma loop_exhausted (n : nat) :
  forall (i : nat) (lastError : option string) (slept : list Q),
    (forall j, (j < n)%nat -> transient (apiCall (i + j))) ->
    exists e,
      (match n with
       | O => e = default "Error: API call failed after multiple retries."%string lastError
       | S m => apiCall (i + m) = Thrown e
       end) /\
      loop apiCall random n i lastError slept =
      mkRun (Thrown e) (i + n)
            (slept ++ map (fun j => backoff j (random j)) (seq i n)).
Proof.
  induction n as [|n IH]; intros i lastError slept Htr.
  - eexists. split; [reflexivity|]. cbn. rewrite app_nil_r, Nat.add_0_r. reflexivity.
  - cbn [loop]. destruct (Htr 0%nat ltac:(lia)) as (e & He & Hre).
    rewrite Nat.add_0_r in He. rewrite He, Hre.
    destruct (IH (S i) (Some e) (slept ++ [backoff i (random i)])) as (e' & He' & Hl).
    { intros j Hj. replace (S i + j)%nat with (i + S j)%nat by lia. apply Htr. lia. }
    exists e'. split.
    + destruct n as [|m].
      * cbn in He'. subst e'. rewrite Nat.add_0_r. exact He.
      * replace (i + S m)%nat with (S i + m)%nat by lia. exact He'.
    + rewrite Hl, <- app_assoc, map_backoff_cons.
      replace (S i + n)%nat with (i + S n)%nat by lia. reflexivity.
Qed.

(** Every attempt is transient or decisive. *)
Lemma transient_or_decisive (o : Outcome T) : transient o \/ decisive o.
Proof.
  destruct o as [v|e]; [right; exact I|].
  destruct (retriable e) eqn:E; [left; exists e; split; [reflexivity | exact E] | right; exact E].
Qed.

(** Some attempt is the first decisive one, or all of the first [n] are
    transient. *)
Lemma first_decisive_or_none (n : nat) :
  (exists d, (d < n)%nat /\ decisive (apiCall d) /\
             forall j, (j < d)%nat -> transient (apiCall j)) \/
  (forall j, (j < n)%nat -> transient (apiCall j)).
Proof.
  induction n as [|n [(d & Hd & Hdec & Htr) | Hall]].
  - right. intros j Hj. lia.
  - left. exists d. split; [lia|]. split; assumption.
  - destruct (transient_or_decisive (apiCall n)) as [Ht | Hdec].
    + right. intros j Hj. destruct (Nat.eq_dec j n) as [->|]; [exact Ht|].
      apply Hall. lia.
    + left. exists n. split; [lia|]. split; assumption.
Qed.

(** X1.  The first attempt that returns a value or throws an error that is
    not retried ends [withRetry]: the promise settles with exactly that
    outcome, the operation has been invoked once for it and once for each
    transient failure before it, and there was one sleep per transient
    failure.  In particular an error that is not retried on the first
    attempt is thrown after one invocation and no sleep. *)
Theorem X1_first_decisive_attempt_ends_withRetry (k : nat) :
  (k < MAX_RETRIES)%nat ->
  (forall j, (j < k)%nat -> transient (apiCall j)) ->
  decisive (apiCall k) ->
  withRetry apiCall random = mkRun (apiCall k) (S k) (backoffs random k).
Proof.
  intros Hk Htr Hdec. unfold withRetry.
  rewrite (loop_decisive k MAX_RETRIES 0 None [] (apiCall k)); try assumption; reflexivity.
Qed.

(** X2.  When all three attempts throw errors that are retried,
    [withRetry] throws the error of the third attempt (never the fallback
    error), after three invocations and three sleeps: it also sleeps after
    the last failure, before it gives up. *)
Theorem X2_withRetry_exhausted_throws_last_error :
  (forall j, (j < MAX_RETRIES)%nat -> transient (apiCall j)) ->
  exists e,
    apiCall 2%nat = Thrown e /\
    withRetry apiCall random = mkRun (Thrown e) 3 (backoffs random 3).
Proof.
  intros Htr. destruct (loop_exhausted MAX_RETRIES 0 None [] Htr) as (e & He & Hl).
  exists e. split; [exact He | exact Hl].
Qed.

(** X3.  Whatever the operation does, [withRetry] settles with the outcome
    of one of its first three invocations: a value it returns is a value
    the operation returned and an error it throws is an error the
    operation threw, so the fallback error of the last line is never
    thrown; the operation is invoked at least once and at most three
    times, and there are never more sleeps than invocations. *)
Theorem X3_withRetry_outcome_comes_from_the_operation :
  let r := withRetry apiCall random in
  (exists k, (k < MAX_RETRIES)%nat /\ apiCall k = settled r) /\
  (1 <= calls r <= MAX_RETRIES)%nat /\
  (length (delays r) <= calls r)%nat.
Proof.
  cbv zeta. unfold withRetry.
  destruct (first_decisive_or_none MAX_RETRIES) as [(d & Hd & Hdec & Htr) | Hall].
  - rewrite (loop_decisive d MAX_RETRIES 0 None [] (apiCall d) Hd Htr eq_refl Hdec).
    cbn [settled calls delays]. split; [exists d; split; [exact Hd | reflexivity]|].
    rewrite app_nil_l, length_map, length_seq. unfold MAX_RETRIES in *. lia.
  - destruct (loop_exhausted MAX_RETRIES 0 None [] Hall) as (e & He & Hl).
    rewrite Hl. cbn [settled calls delays].
    split; [exists 2%nat; split; [unfold MAX_RETRIES; lia | exact He]|].
    rewrite app_nil_l, length_map, length_seq. unfold MAX_RETRIES. lia.
Qed.

(** The sleeps of a run are those of its first retries. *)
Lemma withRetry_delays_shape :
  exists m, (m <= MAX_RETRIES)%nat /\
            delays (withRetry apiCall random) = backoffs random m.
Proof.
  unfold withRetry.
  destruct (first_decisive_or_none MAX_RETRIES) as [(d & Hd & Hdec & Htr) | Hall].
  - exists d. split; [lia|].
    rewrite (loop_decisive d MAX_RETRIES 0 None [] (apiCall d) Hd Htr eq_refl Hdec).
    reflexivity.
  - exists MAX_RETRIES. split; [lia|].
    destruct (loop_exhausted MAX_RETRIES 0 None [] Hall) as (e & _ & Hl).
    rewrite Hl. reflexivity.
Qed.

(** X4.  With [Math.random] drawing from [0, 1), the sleep before retry
    number [i] (counted from 0) lasts at least [1000 * 2^i] and at most
    [1000 * 2^i + 1000] milliseconds, whatever the operation does, and all
    the sleeps of one [withRetry] together last at most ten seconds. *)
Theorem X4_withRetry_sleeps_are_bounded :
  (forall k, 0 <= random k < 1)%Q ->
  let ds := delays (withRetry apiCall random) in
  (forall (i : nat) (d : Q),
      ds !! i = Some d ->
      (inject_Z (1000 * 2 ^ Z.of_nat i) <= d
       <= inject_Z (1000 * 2 ^ Z.of_nat i) + 1000)%Q) /\
  (totalDelay ds <= 10000)%Q.
Proof.
  intros Hrand ds. subst ds.
  destruct withRetry_delays_shape as (m & Hm & ->).
  pose proof (backoff_bounds 0 (random 0%nat) ltac:(lia) (Hrand 0%nat)) as B0.
  pose proof (backoff_bounds 1 (random 1%nat) ltac:(lia) (Hrand 1%nat)) as B1.
  pose proof (backoff_bounds 2 (random 2%nat) ltac:(lia) (Hrand 2%nat)) as B2.
  unfold MAX_RETRIES in Hm.
  assert (Hcases : m = 0%nat \/ m = 1%nat \/ m = 2%nat \/ m = 3%nat) by lia.
  split.
  - intros i d Hi.
    destruct Hcases as [-> | [-> | [-> | ->]]]; cbn in Hi;
      repeat (destruct i as [|i]; cbn in Hi; [injection Hi as <-; assumption|]);
      discriminate.
  - change (inject_Z (1000 * 2 ^ Z.of_nat 0)) with 1000%Q in B0.
    change (inject_Z (1000 * 2 ^ Z.of_nat 1)) with 2000%Q in B1.
    change (inject_Z (1000 * 2 ^ Z.of_nat 2)) with 4000%Q in B2.
    set (d0 := backoff 0 (random 0%nat)) in *.
    set (d1 := backoff 1 (random 1%nat)) in *.
    set (d2 := backoff 2 (random 2%nat)) in *.
    destruct Hcases as [-> | [-> | [-> | ->]]]; cbn;
      fold d0; fold d1; fold d2; lra.
Qed.
End RetryMore.

(** X1 at an operation whose key is refused: one invocation, no sleep. *)
Lemma X1_witness :
  Retry.withRetry refused halves =
  Retry.mkRun (Retry.Thrown "Error: 403 API key not valid") 1 [].
Proof.
  apply (X1_first_decisive_attempt_ends_withRetry refused halves 0).
  - unfold Retry.MAX_RETRIES. lia.
  - intros j Hj. lia.
  - reflexivity.
Defined.

(** X2 at an operation that stays overloaded. *)
Lemma X2_witness :
  exists e,
    swamped 2%nat = Retry.Thrown e /\
    Retry.withRetry swamped halves =
      Retry.mkRun (Retry.Thrown e) 3 (Extra.backoffs halves 3).
Proof.
  apply (X2_withRetry_exhausted_throws_last_error swamped halves).
  intros j _. eexists. split; reflexivity.
Defined.

(** X4 at the operation that answers on its third invocation. *)
Lemma X4_witness :
  (Extra.totalDelay (Retry.delays (Retry.withRetry flaky halves)) <= 10000)%Q.
Proof.
  apply (X4_withRetry_sleeps_are_bounded flaky halves).
  intros k. unfold halves. split; [discriminate | reflexivity].
Defined.

(** ** The capture callback: size, range and exactness of the encoding *)

Section PcmMore.
Import Pcm Extra.

Lemma wrap16_range (n : Z) : -32768 <= wrap16 n <= 32767.
Proof.
  unfold wrap16. pose proof (Z.mod_pos_bound n 65536 ltac:(lia)) as B.
  destruct (Z.ltb_spec (n mod 65536) 32768); lia.
Qed.

Lemma wrap16_bytes (v : Z) :
  -32768 <= v <= 32767 ->
  wrap16 ((v mod 65536) mod 256 + 256 * ((v mod 65536) / 256)) = v.
Proof.
  intros Hv.
  replace ((v mod 65536) mod 256 + 256 * ((v mod 65536) / 256)) with (v mod 65536)
    by (Z.div_mod_to_equations; lia).
  unfold wrap16. rewrite Z.mod_mod by lia.
  destruct (Z.ltb_spec (v mod 65536) 32768); Z.div_mod_to_equations; lia.
Qed.

(** For a number that is not negative, truncation is [Qfloor]. *)
Lemma truncate_nonneg (x : Q) : (0 <= x)%Q -> truncate x = Qfloor x.
Proof.
  destruct x as [n d]. unfold Qle, truncate, Qfloor. simpl. intros H.
  apply Z.quot_div_nonneg; lia.
Qed.

(** For a number that is not positive, truncation is [Qceiling]. *)
Lemma truncate_nonpos (x : Q) : (x <= 0)%Q -> truncate x = Qceiling x.
Proof.
  destruct x as [n d]. unfold Qle, truncate, Qceiling, Qfloor. simpl. intros H.
  rewrite <- (Z.opp_involutive n) at 1.
  rewrite Z.quot_opp_l by lia. f_equal.
  apply Z.quot_div_nonneg; lia.
Qed.

Lemma pcmBytes_step (x : Q) (xs : list Q) :
  pcmBytes (x :: xs) =
  (ToInt16 (x * 32768)%Q mod 65536) mod 256 ::
  (ToInt16 (x * 32768)%Q mod 65536) / 256 :: pcmBytes xs.
Proof. reflexivity. Qed.

(** X5.  Whatever the samples are, the chunk holds two bytes for each
    sample and every byte lies between 0 and 255. *)
Theorem X5_pcm_chunk_has_two_bytes_per_sample (inputData : list Q) :
  length (pcmBytes inputData) = (2 * length inputData)%nat /\
  Forall (fun b => 0 <= b < 256) (pcmBytes inputData).
Proof.
  induction inputData as [|x xs [IHl IHb]]; [split; [reflexivity | constructor]|].
  rewrite pcmBytes_step. split.
  - cbn [length]. rewrite IHl. lia.
  - repeat constructor; try exact IHb; Z.div_mod_to_equations; lia.
Qed.

(** X6.  Reading the bytes of a chunk back as 16-bit integers, low byte
    first, gives the integer of each sample, in order: the serialization
    loses nothing, for all samples. *)
Theorem X6_int16_view_of_pcm_bytes (inputData : list Q) :
  int16View (pcmBytes inputData) =
  map (fun x => ToInt16 (x * 32768)%Q) inputData.
Proof.
  induction inputData as [|x xs IH]; [reflexivity|].
  rewrite pcmBytes_step. cbn [int16View map]. rewrite IH. f_equal.
  apply wrap16_bytes. apply wrap16_range.
Qed.

(** X7.  A sample in [-1, 1) is encoded with an error of less than one
    step, and towards zero: the integer is the scaled sample with its
    fraction dropped, so it is never larger in magnitude than the scaled
    sample and has its sign. *)
Theorem X7_quantization_error_below_one_step (x : Q) :
  (-1 <= x < 1)%Q ->
  let v := inject_Z (ToInt16 (x * 32768)%Q) in
  ((0 <= x -> 0 <= v /\ v <= x * 32768 < v + 1) /\
   (x <= 0 -> v <= 0 /\ v - 1 < x * 32768 <= v))%Q.
Proof.
  intros Hx v. subst v. unfold ToInt16.
  rewrite wrap16_in_range by (apply truncate_scaled_range; exact Hx).
  split; intros Hs.
  - rewrite truncate_nonneg by lra.
    pose proof (Qfloor_le (x * 32768)) as Hl.
    pose proof (Qlt_floor (x * 32768)) as Hu.
    rewrite inject_Z_plus in Hu. change (inject_Z 1) with 1%Q in Hu.
    assert (H0 : 0 <= Qfloor (x * 32768)).
    { change 0 with (Qfloor 0). apply Qfloor_resp_le. lra. }
    split; [|split; [exact Hl | exact Hu]].
    change 0%Q with (inject_Z 0). rewrite <- Zle_Qle. exact H0.
  - rewrite truncate_nonpos by lra.
    pose proof (Qle_ceiling (x * 32768)) as Hu.
    pose proof (Qceiling_lt (x * 32768)) as Hl.
    unfold Z.sub in Hl. rewrite inject_Z_plus in Hl.
    change (inject_Z (-1)) with (-1)%Q in Hl.
    assert (H0 : Qceiling (x * 32768) <= 0).
    { change 0 with (Qceiling 0). apply Qceiling_resp_le. lra. }
    split; [|split; [exact Hl | exact Hu]].
    change 0%Q with (inject_Z 0). rewrite <- Zle_Qle. exact H0.
Qed.

(** X8.  Samples at or above full scale are not clamped: for a sample in
    [1, 2) the 16-bit conversion wraps, and the integer sent is the scaled
    and truncated sample less 65536, a negative number. *)
Theorem X8_overdriven_samples_wrap_to_negative (x : Q) :
  (1 <= x < 2)%Q ->
  ToInt16 (x * 32768)%Q = truncate (x * 32768)%Q - 65536 /\
  -32768 <= ToInt16 (x * 32768)%Q < 0.
Proof.
  intros Hx.
  assert (Ht : 32768 <= truncate (x * 32768)%Q < 65536).
  { rewrite truncate_nonneg by lra. split.
    - assert (H : Qfloor 32768 <= Qfloor (x * 32768))
        by (apply Qfloor_resp_le; lra).
      exact H.
    - apply Z.lt_le_pred. change (Z.pred 65536) with 65535.
      assert (H : (x * 32768 < inject_Z 65536)%Q)
        by (change (inject_Z 65536) with 65536%Q; lra).
      pose proof (Qfloor_le (x * 32768)) as Hl.
      assert (H2 : (inject_Z (Qfloor (x * 32768)) < inject_Z 65536)%Q) by lra.
      rewrite <- Zlt_Qlt in H2. lia. }
  unfold ToInt16, wrap16. rewrite Z.mod_small by lia.
  destruct (Z.ltb_spec (truncate (x * 32768)) 32768); lia.
Qed.
End PcmMore.

(** X7 at the sample 0.3 and X8 at the sample 1.25. *)
Lemma X7_witness :
  let v := inject_Z (Pcm.ToInt16 ((3 # 10) * 32768)%Q) in
  (0 <= v /\ v <= (3 # 10) * 32768 < v + 1)%Q.
Proof.
  apply (X7_quantization_error_below_one_step (3 # 10)).
  - split; [discriminate | reflexivity].
  - discriminate.
Defined.

Lemma X8_witness :
  Pcm.ToInt16 ((5 # 4) * 32768)%Q = Pcm.truncate ((5 # 4) * 32768)%Q - 65536 /\
  -32768 <= Pcm.ToInt16 ((5 # 4) * 32768)%Q < 0.
Proof.
  apply (X8_overdriven_samples_wrap_to_negative (5 # 4)).
  split; [discriminate | reflexivity].
Defined.

(** ** The scheduler over whole runs *)

Section SchedulerMore.
Import Voice Spec Extra.
Variable decodeAudioData : string -> option AudioBuffer.

Lemma scheduler_onTranscription m s : scheduler (onTranscription m s) = scheduler s.
Proof.
  unfold onTranscription.
  destruct (serverContent m ≫= inputTranscription),
           (serverContent m ≫= outputTranscription); reflexivity.
Qed.

Lemma scheduler_dispatch fc s : scheduler (dispatch fc s) = scheduler s.
Proof.
  unfold dispatch. destruct (fc_args fc); [|reflexivity].
  destruct (String.eqb (fc_name fc) "controlRide"); [|reflexivity].
  unfold thenSendToolResponse. cbn [pc withHost].
  destruct (pc s); reflexivity.
Qed.

Lemma scheduler_onToolCall m s : scheduler (onToolCall m s) = scheduler s.
Proof.
  unfold onToolCall. destruct (toolCall m) as [fcs|]; [|reflexivity].
  revert s. induction fcs as [|fc fcs IH]; intros s; [reflexivity|].
  cbn [fold_left]. rewrite IH. apply scheduler_dispatch.
Qed.

(** The scheduler after the statements that follow the audio block. *)
Lemma scheduler_afterAudio m s :
  scheduler (afterAudio m s) =
  scheduler (if interrupted_ m then interrupt s else s).
Proof.
  unfold afterAudio.
  transitivity (scheduler (onToolCall m (onInterrupted m s))).
  { unfold onTurnComplete. destruct (turnComplete_ m); reflexivity. }
  rewrite scheduler_onToolCall. reflexivity.
Qed.

(** What a call of the callback does to the scheduler: the audio block
    leaves it alone, raises the cursor, or raises the cursor and plays a
    buffer; if the call gets that far, an interruption then clears it. *)
Lemma scheduler_onmessage t m s :
  exists s1,
    (s1 = s \/ s1 = raiseCursor t s \/
     exists b, s1 = play b (raiseCursor t s)) /\
    (scheduler (fst (onmessage decodeAudioData t m s)) = scheduler s1 \/
     (interrupted_ m = true /\
      scheduler (fst (onmessage decodeAudioData t m s)) = scheduler (interrupt s1))).
Proof.
  pose proof (scheduler_onTranscription m s) as Et.
  assert (Eraise : scheduler (raiseCursor t (onTranscription m s)) =
                   scheduler (raiseCursor t s)).
  { unfold scheduler, raiseCursor in *. cbn.
    injection Et as E1 E2 E3 E4 E5. rewrite E1, E2, E3, E4, E5. reflexivity. }
  assert (Eplay : forall b, scheduler (play b (raiseCursor t (onTranscription m s))) =
                            scheduler (play b (raiseCursor t s))).
  { intros b. unfold scheduler, raiseCursor, play in *. cbn.
    injection Et as E1 E2 E3 E4 E5. rewrite E1, E2, E3, E4, E5. reflexivity. }
  assert (Eint : forall a b, scheduler a = scheduler b ->
                             scheduler (interrupt a) = scheduler (interrupt b)).
  { intros a b E. unfold scheduler, interrupt in *. cbn.
    injection E as E1 E2 E3 E4 E5. rewrite E1, E3, E4, E5. reflexivity. }
  assert (After : forall a b, scheduler a = scheduler b ->
            scheduler (afterAudio m a) = scheduler b \/
            (interrupted_ m = true /\
             scheduler (afterAudio m a) = scheduler (interrupt b))).
  { intros a b E. rewrite scheduler_afterAudio.
    destruct (interrupted_ m); [right; split; [reflexivity | apply Eint, E] | left; exact E]. }
  unfold onmessage.
  destruct (base64Audio m) as [|[|c rest]|]; cbn [fst].
  - exists s. split; [left; reflexivity | apply After, Et].
  - exists s. split; [left; reflexivity | apply After, Et].
  - destruct (outputAudioContextRef (refs (onTranscription m s))).
    + destruct (decodeAudioData (String c rest)) as [b|]; cbn [fst].
      * exists (play b (raiseCursor t s)).
        split; [right; right; exists b; reflexivity | apply After, Eplay].
      * exists (raiseCursor t s).
        split; [right; left; reflexivity | left; exact Eraise].
    + exists s. split; [left; reflexivity | apply After, Et].
  - exists s. split; [left; reflexivity | left; exact Et].
Qed.

(** *** Playbacks in order *)

Lemma scheduled_scheduler a b : scheduler a = scheduler b -> scheduled a -> scheduled b.
Proof.
  unfold scheduler, scheduled. intros E. injection E as _ E2 _ E4 _.
  rewrite E2, E4. tauto.
Qed.

Lemma inOrder_snoc (ps : list Playback) (q : Playback) :
  inOrder ps -> Forall (fun p => (endAt p <= startAt q)%Q) ps -> inOrder (ps ++ [q]).
Proof.
  induction ps as [|p ps IH]; intros Ho Hf; [cbn; tauto|].
  inversion Hf as [|? ? Hp Hps]; subst. destruct Ho as [Hpq Ho].
  cbn [app inOrder]. split; [|apply IH; assumption].
  destruct ps as [|p' ps]; [exact Hp | exact Hpq].
Qed.

Lemma scheduled_raiseCursor t s : scheduled s -> scheduled (raiseCursor t s).
Proof.
  intros [Ho Hf]. split; [exact Ho|]. cbn.
  eapply Forall_impl; [exact Hf|]. intros p Hp. cbn in Hp.
  pose proof (Q.le_max_l (nextStartTimeRef (refs s)) t). lra.
Qed.

Lemma scheduled_play b s : scheduled s -> scheduled (play b s).
Proof.
  intros [Ho Hf]. pose proof (bufferDuration_nonneg b) as Hd.
  split; cbn.
  - apply inOrder_snoc; [exact Ho|]. exact Hf.
  - apply Forall_app. split.
    + eapply Forall_impl; [exact Hf|]. intros p Hp. cbn in Hp. lra.
    + constructor; [|constructor]. unfold endAt. cbn. lra.
Qed.

Lemma scheduled_step s e :
  quiet e = true -> scheduled s -> scheduled (step decodeAudioData s e).
Proof.
  intros Hq Hs.
  destruct e; cbn [step]; try exact Hs.
  (* Message *)
  destruct (scheduler_onmessage currentTime m s) as (s1 & Hs1 & [E | [Hi _]]).
  - apply (scheduled_scheduler s1); [symmetry; exact E|].
    destruct Hs1 as [-> | [-> | (b & ->)]].
    + exact Hs.
    + apply scheduled_raiseCursor, Hs.
    + apply scheduled_play, scheduled_raiseCursor, Hs.
  - cbn in Hq. rewrite Hi in Hq. discriminate.
Qed.

(** X9.  In a run in which no message signals an interruption, whatever
    else happens (frames that do not decode, tool calls, transcripts,
    nodes ending, the component being stopped), the buffers started are
    in order: each one starts no earlier than the one before it ends. *)
Theorem X9_playbacks_never_overlap_without_interruption
    (h : Host) (es : list Event) :
  forallb quiet es = true ->
  inOrder (started (log (run decodeAudioData es (mounted h)))).
Proof.
  intros Hq.
  assert (H : scheduled (run decodeAudioData es (mounted h))); [|apply H].
  assert (H0 : scheduled (mounted h)) by (split; [exact I | constructor]).
  revert H0. generalize (mounted h) as s.
  induction es as [|e es IH]; intros s Hs; [exact Hs|].
  cbn in Hq. apply andb_prop in Hq as [He Hes].
  cbn [run fold_left]. apply (IH Hes).
  destruct (enabled s e); [apply scheduled_step; assumption | exact Hs].
Qed.

(** *** The active set *)

Lemma tracked_scheduler a b : scheduler a = scheduler b -> tracked a -> tracked b.
Proof.
  unfold scheduler, tracked. intros E. injection E as E1 _ E3 E4 E5.
  rewrite E1, E3, E4, E5. tauto.
Qed.

Lemma tracked_play b s : tracked s -> tracked (play b s).
Proof.
  intros (Hnd & Hsrc & Hst & Hnodes). unfold tracked. cbn.
  split; [exact Hnd|]. split; [|split].
  - intros n Hn. apply elem_of_union in Hn as [Hn | Hn].
    + apply elem_of_singleton in Hn. subst n. split; [lia|].
      intros Hin. apply Hst in Hin. lia.
    + destruct (Hsrc n Hn). split; [lia | assumption].
  - intros n Hn. apply Hst in Hn. lia.
  - rewrite map_app, Hnodes.
    transitivity (seq 0 (S (created (log s)))); [|reflexivity].
    symmetry. apply (seq_snoc 0).
Qed.

(** Stopping every node of the active set and emptying the set, as an
    interruption and [stopListening] do. *)
Lemma tracked_stop_all s s' :
  tracked s ->
  sourcesRef (refs s') = ∅ ->
  created (log s') = created (log s) ->
  started (log s') = started (log s) ->
  stopped (log s') = stopped (log s) ++ elements (sourcesRef (refs s)) ->
  tracked s'.
Proof.
  intros (Hnd & Hsrc & Hst & Hnodes) E1 E3 E4 E5. unfold tracked.
  rewrite E1, E3, E4, E5. split; [|split; [|split]].
  - apply NoDup_app. split; [exact Hnd|]. split; [|apply NoDup_elements].
    intros n Hn Hel. apply elem_of_elements in Hel. destruct (Hsrc n Hel). contradiction.
  - intros n Hn. apply elem_of_empty in Hn. contradiction.
  - intros n Hn. apply elem_of_app in Hn as [Hn | Hn]; [apply Hst, Hn|].
    apply elem_of_elements in Hn. apply Hsrc, Hn.
  - exact Hnodes.
Qed.

Lemma tracked_onended n s : tracked s -> tracked (onended n s).
Proof.
  intros (Hnd & Hsrc & Hst & Hnodes). unfold tracked. cbn.
  split; [exact Hnd|]. split; [|split; assumption].
  intros k Hk. apply elem_of_difference in Hk as [Hk _]. apply Hsrc, Hk.
Qed.

Lemma tracked_step s e : tracked s -> tracked (step decodeAudioData s e).
Proof.
  intros Hs.
  destruct e; cbn [step]; try exact Hs.
  - (* Message *)
    destruct (scheduler_onmessage currentTime m s) as (s1 & Hs1 & HE).
    assert (H1 : tracked s1).
    { destruct Hs1 as [-> | [-> | (b & ->)]];
        [exact Hs | exact Hs | apply tracked_play; exact Hs]. }
    destruct HE as [E | [_ E]].
    + apply (tracked_scheduler s1); [symmetry; exact E | exact H1].
    + apply (tracked_scheduler (interrupt s1)); [symmetry; exact E|].
      apply (tracked_stop_all s1); [exact H1 | reflexivity..].
  - (* Ended *) apply tracked_onended, Hs.
  - (* Stop *) apply (tracked_stop_all s); [exact Hs | reflexivity..].
Qed.

(** X10.  In every state a mounted component can reach, no source node has
    been stopped twice, and every node of the active set has been started
    and has not been stopped. *)
Theorem X10_active_nodes_are_started_and_not_stopped
    (h : Host) (es : list Event) :
  let s := run decodeAudioData es (mounted h) in
  NoDup (stopped (log s)) /\
  forall n : nat,
    n ∈ sourcesRef (refs s) ->
    (n ∉ stopped (log s)) /\ exists p, (p ∈ started (log s)) /\ node p = n.
Proof.
  intros s.
  assert (H : tracked s).
  { subst s. assert (H0 : tracked (mounted h)).
    { unfold tracked. cbn. split; [constructor|].
      split; [intros n Hn; apply elem_of_empty in Hn; contradiction|].
      split; [intros n Hn; apply elem_of_nil in Hn; contradiction | reflexivity]. }
    revert H0. generalize (mounted h) as s.
    induction es as [|e es IH]; intros s Hs; [exact Hs|].
    cbn [run fold_left]. apply IH.
    destruct (enabled s e); [apply tracked_step; exact Hs | exact Hs]. }
  destruct H as (Hnd & Hsrc & _ & Hnodes).
  split; [exact Hnd|]. intros n Hn. destruct (Hsrc n Hn) as [Hlt Hns].
  split; [exact Hns|].
  assert (Hin : n ∈ map node (started (log s))).
  { rewrite Hnodes. apply elem_of_seq. lia. }
  apply list_elem_of_fmap in Hin as (p & Hp & Hpin).
  exists p. split; [exact Hpin | symmetry; exact Hp].
Qed.
End SchedulerMore.

(** X9 at a run of two frames with one that does not decode in between. *)
Lemma X9_witness :
  Extra.inOrder (Voice.started (Voice.log (Voice.run demoDecode demoRun
                                             (Voice.mounted demoHost)))).
Proof.
  apply (X9_playbacks_never_overlap_without_interruption demoDecode demoHost demoRun).
  reflexivity.
Defined.

(** ** Messages, tool calls and the rest of the state *)

Section SeparationFacts.
Import Voice Spec Extra.
Variable decodeAudioData : string -> option AudioBuffer.

Lemma vehicleOf_exact (v : string) (veh : Vehicle) :
  vehicleOf v = Some veh <-> v = vehicleName veh.
Proof.
  unfold vehicleOf. split.
  - destruct (String.eqb_spec v "BIKE") as [->|];
      [intros [= <-]; reflexivity|].
    destruct (String.eqb_spec v "AUTO") as [->|];
      [intros [= <-]; reflexivity|].
    destruct (String.eqb_spec v "CAR") as [->|];
      [intros [= <-]; reflexivity | discriminate].
  - intros ->. destruct veh; reflexivity.
Qed.

(** X11.  The vehicle of a [controlRide] call is applied exactly when it is
    one of the three names of the enumeration, letter for letter, and then
    the host's vehicle is the one named. *)
Theorem X11_named_vehicle_is_applied
    (fc : FunctionCall) (args : gmap string string) (v : string) (veh : Vehicle)
    (s : Session) :
  fc_name fc = "controlRide"%string ->
  fc_args fc = Some args ->
  args !! "vehicle"%string = Some v ->
  (vehicleOf v = Some veh <-> v = vehicleName veh) /\
  (v = vehicleName veh -> vehicle (host (dispatch fc s)) = veh).
Proof.
  intros Hn Ha Hv. split; [apply vehicleOf_exact|].
  intros ->. unfold dispatch. rewrite Ha, Hn, Hv.
  cbn [String.eqb Ascii.eqb Bool.eqb]. rewrite thenSendToolResponse_host.
  destruct veh; cbn;
    destruct (args !! "pickup"%string) as [[|? ?]|],
             (args !! "destination"%string) as [[|? ?]|]; reflexivity.
Qed.

Lemma open_dispatch fc s :
  isVoiceAssistantOpen (host (dispatch fc s)) = isVoiceAssistantOpen (host s).
Proof.
  unfold dispatch. destruct (fc_args fc) as [args|]; [|reflexivity].
  destruct (String.eqb (fc_name fc) "controlRide"); [|reflexivity].
  rewrite thenSendToolResponse_host. cbn.
  destruct (truthy (args !! "pickup"%string)),
           (truthy (args !! "destination"%string)),
           (truthy (args !! "vehicle"%string));
    try destruct (args !! "vehicle"%string ≫= vehicleOf); reflexivity.
Qed.

Lemma open_afterAudio m s :
  isVoiceAssistantOpen (host (afterAudio m s)) = isVoiceAssistantOpen (host s).
Proof.
  unfold afterAudio.
  destruct (onTurnComplete_frame m (onToolCall m (onInterrupted m s))) as (_ & -> & _).
  transitivity (isVoiceAssistantOpen (host (onInterrupted m s))).
  - unfold onToolCall. destruct (toolCall m) as [fcs|]; [|reflexivity].
    generalize (onInterrupted m s) as a.
    induction fcs as [|fc fcs IH]; intros a; [reflexivity|].
    cbn [fold_left]. rewrite IH. apply open_dispatch.
  - destruct (onInterrupted_frame m s) as (-> & _). reflexivity.
Qed.

(** What no message changes: the status, the listening flag, the devices
    and whether the host shows the assistant. *)
Lemma onmessage_keeps_session t m s :
  let s' := fst (onmessage decodeAudioData t m s) in
  status (ui s') = status (ui s) /\
  isListening (ui s') = isListening (ui s) /\
  devices s' = devices s /\
  isVoiceAssistantOpen (host s') = isVoiceAssistantOpen (host s).
Proof.
  cbv zeta.
  destruct (onTranscription_frame m s) as (_ & _ & _ & _ & Est & Eli).
  split; [|split; [|split; [apply devices_onmessage|]]].
  - destruct (onmessage_cases decodeAudioData t m s)
      as [(_ & -> & _) | (_ & sa & -> & Eui & _)]; [exact Est|].
    destruct (afterAudio_ui m sa) as (_ & _ & -> & _). rewrite Eui. exact Est.
  - destruct (onmessage_cases decodeAudioData t m s)
      as [(_ & -> & _) | (_ & sa & -> & Eui & _)]; [exact Eli|].
    destruct (afterAudio_ui m sa) as (_ & _ & _ & ->). rewrite Eui. exact Eli.
  - destruct (onmessage_cases decodeAudioData t m s)
      as [(_ & _ & -> & _) | (_ & sa & -> & _ & Eh & _)]; [reflexivity|].
    rewrite open_afterAudio, Eh. reflexivity.
Qed.

(** X12.  A message without tool calls never changes the state of the host
    and sends no tool response, whatever else it carries; a message that
    consists of tool calls only never changes the transcripts or the
    scheduler. *)
Theorem X12_tool_calls_and_content_are_kept_apart
    (t : Q) (m : LiveServerMessage) (s : Session) :
  let s' := fst (onmessage decodeAudioData t m s) in
  (toolCall m = None ->
   host s' = host s /\ toolResponses (log s') = toolResponses (log s)) /\
  (serverContent m = None -> ui s' = ui s /\ scheduler s' = scheduler s).
Proof.
  cbv zeta. split.
  - intros Hn.
    destruct (onmessage_cases decodeAudioData t m s)
      as [(_ & _ & -> & -> & _) | (_ & sa & -> & _ & Eh & _ & Et & _)];
      [split; reflexivity|].
    unfold afterAudio, onToolCall. rewrite Hn.
    destruct (onTurnComplete_frame m (onInterrupted m sa)) as (_ & -> & -> & _).
    destruct (onInterrupted_frame m sa) as (-> & _ & _ & _ & _ & _ & _ & -> & _).
    split; assumption.
  - intros Hn. unfold onmessage, base64Audio, onTranscription. rewrite Hn. cbn.
    unfold afterAudio, onInterrupted, interrupted_, onTurnComplete, turnComplete_.
    rewrite Hn. split; [apply onToolCall_frame | apply scheduler_onToolCall].
Qed.

(** X13.  However many messages the server sends and whatever they carry,
    handling them never changes the status shown, never acquires or
    releases a handle or closes a device, and never closes the assistant
    view of the host. *)
Theorem X13_messages_never_change_status_or_handles
    (ms : list (Q * LiveServerMessage)) (s : Session) :
  let s' := handleAll decodeAudioData ms s in
  status (ui s') = status (ui s) /\
  isListening (ui s') = isListening (ui s) /\
  devices s' = devices s /\
  isVoiceAssistantOpen (host s') = isVoiceAssistantOpen (host s).
Proof.
  cbv zeta. revert s. induction ms as [|[t m] ms IH]; intros s; [repeat split|].
  cbn [handleAll fold_left fst snd].
  destruct (IH (fst (onmessage decodeAudioData t m s))) as (I1 & I2 & I3 & I4).
  destruct (onmessage_keeps_session t m s) as (E1 & E2 & E3 & E4).
  unfold handleAll in *.
  repeat split; congruence.
Qed.
End SeparationFacts.

(** X11 at a call that asks for an auto. *)
Lemma X11_witness :
  Voice.vehicle
    (Voice.host (Voice.dispatch
                   (Voice.mkFunctionCall "call-2" "controlRide"
                      (Some {[ "vehicle"%string := "AUTO"%string ]}))
                   demoListening)) = Voice.AUTO.
Proof.
  eapply (X11_named_vehicle_is_applied
            (Voice.mkFunctionCall "call-2" "controlRide"
               (Some {[ "vehicle"%string := "AUTO"%string ]}))
            {[ "vehicle"%string := "AUTO"%string ]} "AUTO" Voice.AUTO demoListening);
    reflexivity.
Defined.

(** X12 at a frame and at a call of an unknown function. *)
Lemma X12_witness :
  Voice.host (fst (Voice.onmessage demoDecode 2 (audioMessage "A") demoMidTurn)) =
    Voice.host demoMidTurn /\
  Voice.ui (fst (Voice.onmessage demoDecode 2 (toolCallMessage [weatherCall])
                   demoMidTurn)) = Voice.ui demoMidTurn.
Proof.
  split.
  - apply (X12_tool_calls_and_content_are_kept_apart demoDecode 2
             (audioMessage "A") demoMidTurn). reflexivity.
  - apply (X12_tool_calls_and_content_are_kept_apart demoDecode 2
             (toolCallMessage [weatherCall]) demoMidTurn). reflexivity.
Defined.

(** ** Life cycle: after a failure and after the end *)

Section LifeCycleMore.
Import Voice Spec Extra.
Variable decodeAudioData : string -> option AudioBuffer.

Lemma micFailed_step name s e :
  enabled s e = true -> micFailed name s -> micFailed name (step decodeAudioData s e).
Proof.
  intros He (Hpc & Hst & Hli & Hr & Hc & Ht & Hn).
  destruct e; cbn in He; unfold connectCalled in He; rewrite ?Hpc, ?Hc in He;
    try discriminate.
  cbn [step]. unfold micFailed. injection Hn as N1 N2 N3 N4.
  cbn. rewrite Hr, Hpc, Hst, Hc, Ht, N1, N2, N3, N4. cbn. repeat split.
Qed.

Lemma micFailed_run name es s :
  micFailed name s /\ tracked s ->
  micFailed name (run decodeAudioData es s) /\ tracked (run decodeAudioData es s).
Proof.
  revert s. induction es as [|e es IH]; intros s Hs; [exact Hs|].
  cbn [run fold_left]. apply IH. destruct (enabled s e) eqn:He; [|exact Hs].
  destruct Hs as [Hm Ht].
  split; [apply micFailed_step; assumption | apply tracked_step; exact Ht].
Qed.

(** X14.  When [getUserMedia] is rejected, the component shows the status
    that belongs to the name of the error and holds no handle, and this
    stays so whatever happens afterwards: nothing is ever acquired,
    closed, played or sent. *)
Theorem X14_microphone_failure_is_final
    (h : Host) (name : string) (es : list Event) :
  let s := run decodeAudioData (Start :: MediaRejected name :: es) (mounted h) in
  status (ui s) = catchStatus name /\
  isListening (ui s) = false /\
  allReleased s = true /\
  started (log s) = [] /\
  toolResponses (log s) = [] /\
  (trackStops (log s), inputCloses (log s), outputCloses (log s),
   sessionCloses (log s)) = (0, 0, 0, 0)%nat.
Proof.
  intros s.
  assert (H : micFailed name s /\ tracked s).
  { subst s.
    change (run decodeAudioData (Start :: MediaRejected name :: es) (mounted h))
      with (run decodeAudioData es (mediaRejected name (connectAndListen (mounted h)))).
    apply micFailed_run. split; [repeat split|]. unfold tracked. cbn.
    split; [constructor|].
    split; [intros n Hn; apply elem_of_empty in Hn; contradiction|].
    split; [intros n Hn; apply elem_of_nil in Hn; contradiction | reflexivity]. }
  destruct H as ((Hpc & Hst & Hli & Hr & Hc & Ht & Hn) & (_ & _ & _ & Hnodes)).
  split; [exact Hst|]. split; [exact Hli|].
  split; [unfold allReleased, captureOpen, outputOpen, networkOpen; rewrite Hr; reflexivity|].
  split; [|split; assumption].
  rewrite Hc in Hnodes. destruct (started (log s)); [reflexivity | discriminate].
Qed.

(** The devices stay as they are once [connectAndListen] has finished and
    nothing is held. *)
Lemma devices_step_down s e :
  finished s = true -> handlesDown s -> enabled s e = true ->
  devices (step decodeAudioData s e) = devices s.
Proof.
  intros Hf (R1 & R2 & R3 & R4 & R5) He.
  destruct e; cbn [step]; try reflexivity;
    try (unfold finished in Hf; cbn in He; destruct (pc s); discriminate).
  - apply devices_onmessage.
  - unfold devices. cbn. rewrite R1, R2, R3, R4, R5. cbn. rewrite !Nat.add_0_r.
    destruct (inputAudioContextRef (refs s)) as [[|]|]; try discriminate;
      destruct (outputAudioContextRef (refs s)) as [[|]|]; try discriminate;
      reflexivity.
Qed.

Lemma down_devices a b :
  devices a = devices b -> finished b = true -> handlesDown b ->
  finished a = true /\ handlesDown a.
Proof.
  unfold devices, finished, handlesDown.
  intros E. injection E as E1 E2 E3 E4 E5 _ _ _ _ _ E11.
  rewrite E1, E2, E3, E4, E5, E11. tauto.
Qed.

Lemma devices_counts a b :
  devices a = devices b ->
  trackStops (log a) = trackStops (log b) /\
  inputCloses (log a) = inputCloses (log b) /\
  outputCloses (log a) = outputCloses (log b).
Proof.
  unfold devices. intros E. injection E as _ _ _ _ _ E6 E7 E8 _ _ _.
  repeat split; assumption.
Qed.

Lemma devices_run_down es s :
  finished s = true -> handlesDown s ->
  devices (run decodeAudioData es s) = devices s.
Proof.
  intros Hf Hd.
  assert (H : forall x, devices x = devices s ->
                        devices (run decodeAudioData es x) = devices s);
    [|apply H; reflexivity].
  induction es as [|e es IH]; intros x Hx; [exact Hx|].
  cbn [run fold_left]. apply IH. destruct (enabled x e) eqn:He; [|exact Hx].
  destruct (down_devices x s Hx Hf Hd) as [Hfx Hdx].
  rewrite (devices_step_down x e Hfx Hdx He). exact Hx.
Qed.

(** X15.  Once [connectAndListen] has run to its end (the session is
    ready, or the start has failed), a call of [stopListening] is final:
    whatever happens afterwards, no handle is held again, and each audio
    device has been closed once if it had been acquired and never
    otherwise. *)
Theorem X15_stop_after_the_start_has_finished_is_final
    (h : Host) (es1 es2 : list Event) :
  let s := run decodeAudioData es1 (mounted h) in
  finished s = true ->
  let s' := run decodeAudioData es2 (stopListening s) in
  allReleased s' = true /\
  processorRef (refs s') = false /\
  trackStops (log s') = acquired s /\
  inputCloses (log s') = acquired s /\
  outputCloses (log s') = acquired s.
Proof.
  intros s Hf s'.
  assert (Hd0 : handlesDown (stopListening s)).
  { destruct (released_stopListening s) as (R1 & R2 & R3 & R4 & R5 & _).
    repeat split; assumption. }
  assert (Hf0 : finished (stopListening s) = true) by exact Hf.
  pose proof (devices_run_down es2 (stopListening s) Hf0 Hd0) as E. fold s' in E.
  destruct (down_devices s' (stopListening s) E Hf0 Hd0) as [_ (R1 & R2 & R3 & _ & R5)].
  destruct (accounted_run decodeAudioData es1 (mounted h) (accounted_mounted h))
    as (Ht & Hi & Ho & _). fold s in Ht, Hi, Ho.
  destruct (stopListening_counts s) as (Ct & Ci & Co).
  destruct (devices_counts s' (stopListening s) E) as (Et & Ei & Eo).
  split; [unfold allReleased, captureOpen, outputOpen, networkOpen;
          rewrite R1, R2, R5; reflexivity|].
  split; [exact R3|].
  split; [rewrite Et, Ct; exact Ht|].
  split; [rewrite Ei, Ci; exact Hi | rewrite Eo, Co; exact Ho].
Qed.
End LifeCycleMore.

(** X15 at a session that is stopped and then receives a frame, a second
    stop and the close of the connection. *)
Lemma X15_witness :
  let s := Voice.run demoDecode
             [Voice.Start; Voice.MediaGranted; Voice.SessionResolved; Voice.Open]
             (Voice.mounted demoHost) in
  let s' := Voice.run demoDecode
              [Voice.Message 3 (audioMessage "A"); Voice.Stop; Voice.Close]
              (Voice.stopListening s) in
  Spec.allReleased s' = true /\
  Voice.processorRef (Voice.refs s') = false /\
  Voice.trackStops (Voice.log s') = 1%nat /\
  Voice.inputCloses (Voice.log s') = 1%nat /\
  Voice.outputCloses (Voice.log s') = 1%nat.
Proof.
  apply (X15_stop_after_the_start_has_finished_is_final demoDecode demoHost
           [Voice.Start; Voice.MediaGranted; Voice.SessionResolved; Voice.Open]
           [Voice.Message 3 (audioMessage "A"); Voice.Stop; Voice.Close]).
  reflexivity.
Defined.

(** ** ExploreView: voice input *)

Section ExploreFacts.
Import Explore Extra.

Lemma exploreDown_stopListening s : exploreDown (stopListening s).
Proof.
  unfold exploreDown. cbn.
  destruct (inputAudioContextRef (refs s)) as [[|]|]; repeat split.
Qed.

(** X16.  [stopListening] of ExploreView is idempotent: a second call in a
    row changes nothing at all.  After it, and after the error callback,
    nothing is held, and the first call has released each of the session,
    the stream, the audio context and the processor once if it was held
    and not at all if it was not. *)
Theorem X16_explore_stopListening_is_idempotent (s : View) :
  stopListening (stopListening s) = stopListening s /\
  exploreDown (stopListening s) /\
  exploreDown (onerror s) /\
  sessionCloses (log (stopListening s)) =
    (sessionCloses (log s) + Voice.count (sessionRef (refs s)))%nat /\
  trackStops (log (stopListening s)) =
    (trackStops (log s) + Voice.count (streamRef (refs s)))%nat /\
  contextCloses (log (stopListening s)) =
    (contextCloses (log s) +
     Voice.count (Voice.isRunning (inputAudioContextRef (refs s))))%nat /\
  disconnects (log (stopListening s)) =
    (disconnects (log s) + Voice.count (processorRef (refs s)))%nat.
Proof.
  split; [|split; [apply exploreDown_stopListening|
                   split; [apply exploreDown_stopListening | repeat split]]].
  destruct s as [u [se ic st pr fq] [rq ts cc di sc]].
  unfold stopListening, cleanupAudio, withUi, setIsListening. cbn.
  rewrite !Nat.add_0_r.
  destruct ic as [[|]|]; cbn; rewrite ?Nat.add_0_r; reflexivity.
Qed.

Lemma hear_snoc ms m s : hear (ms ++ [m]) s = onmessage m (hear ms s).
Proof. unfold hear. rewrite fold_left_app. reflexivity. Qed.

Lemma heard_snoc ms m before :
  heard (ms ++ [m]) before =
  match Voice.serverContent m ≫= Voice.inputTranscription with
  | Some (String c rest) => String c rest
  | _ => heard ms before
  end.
Proof. unfold heard. rewrite fold_left_app. reflexivity. Qed.

(** Messages touch the query and [finalQueryRef] only. *)
Lemma hear_frame ms s :
  finalQueryRef (refs (hear ms s)) = heard ms (finalQueryRef (refs s)) /\
  log (hear ms s) = log s /\
  (sessionRef (refs (hear ms s)), inputAudioContextRef (refs (hear ms s)),
   streamRef (refs (hear ms s)), processorRef (refs (hear ms s))) =
  (sessionRef (refs s), inputAudioContextRef (refs s), streamRef (refs s),
   processorRef (refs s)).
Proof.
  induction ms as [|m ms IH] using rev_ind; [repeat split|].
  rewrite hear_snoc, heard_snoc. destruct IH as (I1 & I2 & I3).
  unfold onmessage.
  destruct (Voice.serverContent m ≫= Voice.inputTranscription) as [[|c rest]|];
    cbn; repeat split; assumption.
Qed.

(** X17.  When a voice session closes, the search that starts is for the
    last transcript heard that is not empty; if none was heard it is for
    the query of the render in which the microphone was switched on, not
    for what the field shows by then; a blank query starts no search.  In
    every case [finalQueryRef] is cleared, the view stops listening and
    the stream, the audio context and the processor are released. *)
Theorem X17_explore_close_searches_for_the_last_transcript
    (ms : list Voice.LiveServerMessage) (query0 : string)
    (location0 : option Location) (s : View) :
  let spoken := heard ms (finalQueryRef (refs s)) in
  let searchQuery :=
    match spoken with
    | EmptyString => query0
    | String c rest => String c rest
    end in
  let s' := onclose query0 location0 (hear ms s) in
  requests (log s') =
    requests (log s) ++ (if Js.blank searchQuery then [] else [(searchQuery, location0)]) /\
  finalQueryRef (refs s') = ""%string /\
  isListening (ui s') = false /\
  isLoading (ui s') = (if Js.blank searchQuery then isLoading (ui (hear ms s)) else true) /\
  streamRef (refs s') = false /\
  processorRef (refs s') = false /\
  Voice.isRunning (inputAudioContextRef (refs s')) = false.
Proof.
  cbv zeta. destruct (hear_frame ms s) as (Ef & El & _).
  revert Ef El. generalize (hear ms s) as x. intros x Ef El.
  unfold onclose, handleSearch.
  change (finalQueryRef (refs (withUi (setIsListening false) (cleanupAudio x))))
    with (finalQueryRef (refs x)).
  rewrite Ef.
  set (q := match heard ms (finalQueryRef (refs s)) with
            | EmptyString => query0
            | String a s0 => String a s0
            end).
  unfold performSearch.
  destruct (Js.blank q) eqn:Hb.
  - cbn. rewrite El, app_nil_r.
    destruct (inputAudioContextRef (refs x)) as [[|]|]; repeat split.
  - cbn. rewrite El.
    destruct (inputAudioContextRef (refs x)) as [[|]|]; repeat split.
Qed.
End ExploreFacts.

(** ** BookingView: the driver marker *)

Section BookingFacts.
Import Booking Extra.

Lemma moveDriver_in_box (r1 r2 : Q) (p : Position) :
  (10 <= top (moveDriver r1 r2 p) <= 80 /\
   10 <= left (moveDriver r1 r2 p) <= 90)%Q.
Proof.
  unfold moveDriver. cbn [top left].
  set (a := (top p + (r1 - (1 # 2)) * 4)%Q). set (b := (left p + (r2 - (1 # 2)) * 4)%Q).
  pose proof (Q.le_max_l 10 (Qmin 80 a)). pose proof (Q.le_min_l 80 a).
  pose proof (Q.le_max_l 10 (Qmin 90 b)). pose proof (Q.le_min_l 90 b).
  assert ((Qmax 10 (Qmin 80 a) <= 80)%Q) by (apply Q.max_lub; [lra | assumption]).
  assert ((Qmax 10 (Qmin 90 b) <= 90)%Q) by (apply Q.max_lub; [lra | assumption]).
  repeat split; assumption.
Qed.

Lemma driven_in_box (draws : list (Q * Q)) :
  (10 <= top (driven draws) <= 80 /\ 10 <= left (driven draws) <= 90)%Q.
Proof.
  destruct draws as [|r draws] using rev_ind.
  - cbn. repeat split; discriminate.
  - unfold driven. rewrite fold_left_app. cbn [fold_left]. apply moveDriver_in_box.
Qed.

Lemma clamp_near (lo hi x d : Q) :
  (lo <= x <= hi)%Q -> (-2 <= d <= 2)%Q ->
  (x - 2 <= Qmax lo (Qmin hi (x + d)) <= x + 2)%Q.
Proof.
  intros Hx Hd.
  pose proof (Q.min_spec hi (x + d)) as Hmin.
  pose proof (Q.max_spec lo (Qmin hi (x + d))) as Hmax.
  set (mn := Qmin hi (x + d)) in *. set (mx := Qmax lo mn) in *.
  destruct Hmin as [[? ?] | [? ?]]; destruct Hmax as [[? ?] | [? ?]]; lra.
Qed.

(** X19.  The marker of the driver starts on the map and never leaves it:
    after any number of moves its position is between 10 and 80 per cent
    from the top and between 10 and 90 per cent from the left; and with
    [Math.random] drawing from [0, 1) one move shifts it by at most 2 per
    cent in each direction. *)
Theorem X19_driver_marker_stays_on_the_map (draws : list (Q * Q)) (r1 r2 : Q) :
  let p := driven draws in
  (10 <= top p <= 80 /\ 10 <= left p <= 90)%Q /\
  ((0 <= r1 < 1)%Q -> (0 <= r2 < 1)%Q ->
   (top p - 2 <= top (moveDriver r1 r2 p) <= top p + 2 /\
    left p - 2 <= left (moveDriver r1 r2 p) <= left p + 2)%Q).
Proof.
  cbv zeta. pose proof (driven_in_box draws) as [Ht Hl].
  split; [split; assumption|].
  intros H1 H2. unfold moveDriver. cbn [top left].
  split; apply clamp_near; try assumption; lra.
Qed.
End BookingFacts.

(** X19 at the first move, with draws 0.9 and 0.1. *)
Lemma X19_witness :
  (Booking.top (Extra.driven []) - 2
   <= Booking.top (Booking.moveDriver (9 # 10) (1 # 10) (Extra.driven []))
   <= Booking.top (Extra.driven []) + 2 /\
   Booking.left (Extra.driven []) - 2
   <= Booking.left (Booking.moveDriver (9 # 10) (1 # 10) (Extra.driven []))
   <= Booking.left (Extra.driven []) + 2)%Q.
Proof.
  apply (X19_driver_marker_stays_on_the_map [] (9 # 10) (1 # 10));
    split; [discriminate | reflexivity | discriminate | reflexivity].
Defined.

(** ** ChatBotView: the conversation *)

Section ChatFacts.
Import Chat Extra.

Lemma exchanges_snoc (n : nat) : exchanges n ++ [USER; GEMINI] = exchanges (S n).
Proof. induction n as [|n IH]; [reflexivity|]. cbn. rewrite IH. reflexivity. Qed.

Lemma conversing_step (s : View) (e : Event) :
  enabled s e = true -> conversing s -> conversing (step s e).
Proof.
  intros He ((n & Hn) & Hs & Hb).
  destruct e as [| v | | o]; cbn [step].
  - split; [exists n; exact Hn | split; assumption].
  - split; [exists n; exact Hn | split; assumption].
  - assert (Hs0 : conversing s) by (split; [exists n; exact Hn | split; assumption]).
    unfold handleSend.
    destruct (Js.blank (input s)) eqn:Hblank; cbn [orb]; [exact Hs0|].
    destruct (chat s); cbn [negb orb]; [|exact Hs0].
    destruct (isLoading s) eqn:Hl; [exact Hs0|].
    rewrite app_nil_r in Hn. split; [|split]; cbn.
    + exists n. rewrite map_app, Hn. reflexivity.
    + rewrite filter_app, map_app, Hs. reflexivity.
    + apply Forall_app. split; [exact Hb|]. constructor; [exact Hblank | constructor].
  - cbn in He. rewrite He in Hn. split; [|split]; cbn.
    + exists (S n). rewrite map_app, Hn, <- app_assoc, app_nil_r.
      destruct o; apply exchanges_snoc.
    + rewrite filter_app, map_app, Hs. destruct o; cbn; rewrite app_nil_r; reflexivity.
    + exact Hb.
Qed.

(** X20.  Whatever the user types and presses and however the requests
    end, the conversation shown consists of whole exchanges, a message of
    the user followed by one reply, with at the end the one message that
    still waits for its reply exactly while the view is loading; the texts
    sent to the backend are the messages of the user, in order, and none
    of them is blank. *)
Theorem X20_chat_shows_whole_exchanges (es : list Event) :
  let s := run es mounted in
  (exists n, map sender (messages s) =
             exchanges n ++ (if isLoading s then [USER] else [])) /\
  sent s = map text (filter (fun m => fromUser m = true) (messages s)) /\
  Forall (fun t => Js.blank t = false) (sent s).
Proof.
  cbv zeta.
  assert (H0 : conversing mounted).
  { split; [exists 0%nat; reflexivity | split; [reflexivity | constructor]]. }
  revert H0. generalize mounted as s.
  induction es as [|e es IH]; intros s Hs; [exact Hs|].
  cbn [run fold_left]. apply IH.
  destruct (enabled s e) eqn:He; [apply conversing_step; assumption | exact Hs].
Qed.

(** The outcome of [withRetry] is the outcome of one of the first three
    invocations. *)
Lemma sendChatMessage_outcome (sendMessage : nat -> Retry.Outcome string)
    (random : nat -> Q) :
  exists k, (k < Retry.MAX_RETRIES)%nat /\
            sendChatMessage sendMessage random = sendMessage k.
Proof.
  unfold sendChatMessage, Retry.withRetry.
  destruct (first_decisive_or_none sendMessage Retry.MAX_RETRIES)
    as [(d & Hd & Hdec & Htr) | Hall].
  - exists d. split; [exact Hd|].
    rewrite (loop_decisive sendMessage random d Retry.MAX_RETRIES 0 None []
               (sendMessage d) Hd Htr eq_refl Hdec). reflexivity.
  - destruct (loop_exhausted sendMessage random Retry.MAX_RETRIES 0 None [] Hall)
      as (e & He & Hl).
    exists 2%nat. split; [unfold Retry.MAX_RETRIES; lia|]. rewrite Hl.
    symmetry. exact He.
Qed.

(** X21.  Sending a message that is not blank from a view that is idle:
    if the backend answers after fewer than three failures that are
    retried, the conversation grows by the message and the answer; if
    each of the three attempts throws, it grows by the message and the
    apology.  Either way the field is emptied and the view is idle
    again. *)
Theorem X21_chat_reply_after_retries
    (sendMessage : nat -> Retry.Outcome string) (random : nat -> Q) (s : View) :
  Js.blank (input s) = false -> chat s = true -> isLoading s = false ->
  let s' := settle (sendChatMessage sendMessage random) (handleSend s) in
  (forall (k : nat) (answer : string),
      (k < Retry.MAX_RETRIES)%nat ->
      (forall j, (j < k)%nat -> transient (sendMessage j)) ->
      sendMessage k = Retry.Resolved answer ->
      messages s' = messages s ++ [mkChatMessage USER (input s);
                                   mkChatMessage GEMINI answer]) /\
  ((forall j, (j < Retry.MAX_RETRIES)%nat -> exists e, sendMessage j = Retry.Thrown e) ->
   messages s' = messages s ++ [mkChatMessage USER (input s);
                                mkChatMessage GEMINI apology]) /\
  input s' = ""%string /\ isLoading s' = false /\ sent s' = sent s ++ [input s].
Proof.
  intros Hb Hc Hl. cbv zeta. unfold handleSend. rewrite Hb, Hc, Hl. cbn [negb orb].
  split; [|split; [|repeat split]].
  - intros k answer Hk Htr Hk'. unfold sendChatMessage, Retry.withRetry.
    rewrite (loop_decisive sendMessage random k Retry.MAX_RETRIES 0 None []
               (Retry.Resolved answer) Hk Htr Hk' I).
    cbn. rewrite <- app_assoc. reflexivity.
  - intros Hall.
    destruct (sendChatMessage_outcome sendMessage random) as (k & Hk & ->).
    destruct (Hall k Hk) as (e & ->). cbn. rewrite <- app_assoc. reflexivity.
Qed.
End ChatFacts.

(** X21 at a backend that is overloaded once and then answers. *)
Lemma X21_witness :
  Chat.messages
    (Chat.settle (Chat.sendChatMessage busyChat halves)
       (Chat.handleSend (Chat.setInput "Hello" (Chat.initChat Chat.mounted)))) =
  [Chat.mkChatMessage Chat.USER "Hello"; Chat.mkChatMessage Chat.GEMINI "Namaste!"].
Proof.
  destruct (X21_chat_reply_after_retries busyChat halves
              (Chat.setInput "Hello" (Chat.initChat Chat.mounted)))
    as (Answered & _).
  - reflexivity.
  - reflexivity.
  - reflexivity.
  - apply (Answered 1%nat "Namaste!"%string).
    + unfold Retry.MAX_RETRIES. lia.
    + intros j Hj. assert (j = 0%nat) as -> by lia.
      eexists. split; reflexivity.
    + reflexivity.
Defined.

(** X10 at a session with one frame playing: node 0 is active, started and
    not stopped. *)
Lemma X10_witness :
  let s := Voice.run demoDecode
             [Voice.Start; Voice.MediaGranted; Voice.SessionResolved; Voice.Open;
              Voice.Message 0 (audioMessage "A")]
             (Voice.mounted demoHost) in
  (0%nat ∉ Voice.stopped (Voice.log s)) /\
  exists p, (p ∈ Voice.started (Voice.log s)) /\ Voice.node p = 0%nat.
Proof.
  intros s.
  destruct (X10_active_nodes_are_started_and_not_stopped demoDecode demoHost
              [Voice.Start; Voice.MediaGranted; Voice.SessionResolved; Voice.Open;
               Voice.Message 0 (audioMessage "A")]) as [_ H].
  apply (H 0%nat). apply (bool_decide_unpack _). vm_compute. exact I.
Defined.
